(** * Country Road catalogue scraper: a shallow embedding of
      [server/scrape_countryroad.py] and the properties of its
      classifier, page extractor, persistence adapter and crawl loop.

    Conventions of the embedding.
    - Python [str] values are Rocq [string]s; the development treats the
      characters as ASCII (code points below 128), which is where
      [str.lower], [str.strip] and [str.encode] coincide with the
      byte-wise functions below.
    - The collaborators the script calls into (requests, BeautifulSoup,
      Firestore) are not part of the script.  The HTTP client and the HTML
      parser are represented by what they hand back to the script; the
      document store is an in-memory map with Firestore's documented
      merge-write behaviour, stamped by a server clock; a write may be
      refused, in which case [set] raises and the store stays as it was. *)

From Stdlib Require Import ZArith Ascii String List Lia Bool DecimalString DecimalNat.
From stdpp Require Import gmap strings list list_numbers fin_maps.
Import ListNotations.

Local Open Scope string_scope.

(** ** Python string primitives *)

Module PyStr.

(** [c.lower()] on an ASCII character. *)
Definition lower_ascii (c : ascii) : ascii :=
  let n := nat_of_ascii c in
  if (65 <=? n)%nat && (n <=? 90)%nat then ascii_of_nat (n + 32) else c.

(** [s.lower()] *)
Fixpoint lower (s : string) : string :=
  match s with
  | EmptyString => EmptyString
  | String c s' => String (lower_ascii c) (lower s')
  end.

(** [s.startswith(p)] *)
Definition startswith (p s : string) : bool := String.prefix p s.

(** [kw in s]: [kw] occurs as a contiguous substring of [s]. *)
Fixpoint contains (kw s : string) : bool :=
  startswith kw s ||
  match s with
  | EmptyString => false
  | String _ s' => contains kw s'
  end.

(** Truthiness of a [str]: the empty string is falsy. *)
Definition nonempty (s : string) : bool :=
  match s with EmptyString => false | String _ _ => true end.

(** The ASCII characters for which [str.isspace] holds; these are the
    ones [str.strip()] removes. *)
Definition is_space (c : ascii) : bool :=
  let n := nat_of_ascii c in
  ((9 <=? n)%nat && (n <=? 13)%nat) || ((28 <=? n)%nat && (n <=? 32)%nat).

Fixpoint lstrip (s : string) : string :=
  match s with
  | EmptyString => EmptyString
  | String c s' => if is_space c then lstrip s' else s
  end.

(** Right strip, computed from the right end: a suffix made of blanks
    only collapses to the empty string. *)
Fixpoint rstrip (s : string) : string :=
  match s with
  | EmptyString => EmptyString
  | String c s' =>
      match rstrip s' with
      | EmptyString => if is_space c then EmptyString else String c EmptyString
      | r => String c r
      end
  end.

(** [s.strip()] *)
Definition strip (s : string) : string := rstrip (lstrip s).

(** [s.replace(old, new)] for a non-empty [old]: occurrences are found
    left to right and do not overlap.  [skip] counts the characters of
    the occurrence just replaced that are still to be consumed. *)
Fixpoint replace_from (old new : string) (skip : nat) (s : string) : string :=
  match s with
  | EmptyString => EmptyString
  | String c s' =>
      match skip with
      | S k => replace_from old new k s'
      | O =>
          if startswith old s
          then new ++ replace_from old new (String.length old - 1) s'
          else String c (replace_from old new 0 s')
      end
  end.

Definition replace (old new s : string) : string := replace_from old new 0 s.

End PyStr.

(** ** Configuration tables *)

(** The category table, in declaration order (a Python [dict] iterates
    in insertion order). *)
Definition CATEGORY_KEYWORDS : list (string * list string) :=
  [ ("tops", ["shirt"; "t-shirt"; "tee"; "polo"; "knit"; "sweat"; "jumper";
              "crew"; "henley"; "singlet"; "tank"; "top"]);
    ("bottoms", ["pant"; "pants"; "jean"; "short"; "trouser"; "chino";
                 "track"; "jogger"; "suit"]);
    ("shoes", ["shoe"; "sneaker"; "boot"; "loafer"; "slide"; "thong"]);
    ("outerwear", ["jacket"; "coat"; "blazer"; "overshirt"; "duffle"]);
    ("accessories", ["belt"; "bag"; "duffle"; "wallet"; "tie"; "sock";
                     "scarf"; "hat"]) ].

Definition SUBCATEGORY_URLS : list string :=
  [ "https://www.countryroad.co.nz/man-clothing-chinos/";
    "https://www.countryroad.co.nz/man-clothing-pants/";
    "https://www.countryroad.co.nz/man-clothing-denim-jeans/";
    "https://www.countryroad.co.nz/man-clothing-shorts/";
    "https://www.countryroad.co.nz/man-clothing-suits-tailoring/";
    "https://www.countryroad.co.nz/man-clothing-knitwear/";
    "https://www.countryroad.co.nz/man-clothing-t-shirts/";
    "https://www.countryroad.co.nz/man-clothing-polos/";
    "https://www.countryroad.co.nz/man-clothing-casual-shirts/";
    "https://www.countryroad.co.nz/man-clothing-business-shirts/";
    "https://www.countryroad.co.nz/man-clothing-jackets-coats/";
    "https://www.countryroad.co.nz/man-clothing-blazers/";
    "https://www.countryroad.co.nz/man-clothing-sweats/";
    "https://www.countryroad.co.nz/man-clothing-swimwear/" ].

(** ** Category classifier *)

(** The inner loop of [map_category]: [for kw in keywords: if kw in
    name_lower: return category]. *)
Fixpoint scan_keywords (category : string) (keywords : list string)
    (name_lower : string) : option string :=
  match keywords with
  | [] => None
  | kw :: rest =>
      if PyStr.contains kw name_lower then Some category
      else scan_keywords category rest name_lower
  end.

(** The outer loop over the table's items. *)
Fixpoint scan_categories (table : list (string * list string))
    (name_lower : string) : option string :=
  match table with
  | [] => None
  | (category, keywords) :: rest =>
      match scan_keywords category keywords name_lower with
      | Some c => Some c
      | None => scan_categories rest name_lower
      end
  end.

Definition map_category (name : string) : string :=
  let name_lower := PyStr.lower name in
  match scan_categories CATEGORY_KEYWORDS name_lower with
  | Some category => category
  | None => "tops"
  end.

(** *** Vocabulary for the classifier's properties *)

(** The category labels in declaration order. *)
Definition category_labels : list string := map fst CATEGORY_KEYWORDS.

(** The keyword list of a label ([[]] for a label that is not declared). *)
Fixpoint keywords_in (table : list (string * list string)) (category : string)
    : list string :=
  match table with
  | [] => []
  | (c, kws) :: rest =>
      if String.eqb c category then kws else keywords_in rest category
  end.

Definition keywords_of (category : string) : list string :=
  keywords_in CATEGORY_KEYWORDS category.

(** [name] contains (case-insensitively, as the classifier lower-cases
    its input) some keyword of [category]. *)
Definition has_keyword_of (category name : string) : bool :=
  existsb (fun kw => PyStr.contains kw (PyStr.lower name)) (keywords_of category).

(** Position of a label in the declaration order. *)
Fixpoint position_in (labels : list string) (category : string) : option nat :=
  match labels with
  | [] => None
  | c :: rest =>
      if String.eqb c category then Some 0%nat
      else option_map S (position_in rest category)
  end.

Definition declared_before (c1 c2 : string) : Prop :=
  match position_in category_labels c1, position_in category_labels c2 with
  | Some i, Some j => (i < j)%nat
  | _, _ => False
  end.


(** ** Python's [float(str)] *)

(** The value denoted by a decimal literal, before rounding to binary64:
    [Finite neg m e] stands for [(-1)^neg * m * 10^e].  The rounding
    itself is not modelled; none of the properties below depends on it. *)
Inductive pyfloat :=
  | Finite (negative : bool) (mantissa : N) (exp10 : Z)
  | Infinity (negative : bool)
  | NaN.

Module PyFloat.

Definition digit_of (c : ascii) : option N :=
  let n := nat_of_ascii c in
  if (48 <=? n)%nat && (n <=? 57)%nat then Some (N.of_nat (n - 48)) else None.

(** The remainder of a [digitpart] once a first digit has been read:
    further digits, each optionally preceded by one underscore. *)
Fixpoint more_digits (s : string) : list N * string :=
  match s with
  | EmptyString => ([], s)
  | String c s' =>
      match digit_of c with
      | Some d => let '(ds, r) := more_digits s' in (d :: ds, r)
      | None =>
          if Ascii.eqb c "_"
          then match s' with
               | String c2 s'' =>
                   match digit_of c2 with
                   | Some d => let '(ds, r) := more_digits s'' in (d :: ds, r)
                   | None => ([], s)
                   end
               | EmptyString => ([], s)
               end
          else ([], s)
      end
  end.

(** [digitpart ::= digit (["_"] digit)*]; the empty list when [s] does
    not start with a digit. *)
Definition digitpart (s : string) : list N * string :=
  match s with
  | String c s' =>
      match digit_of c with
      | Some d => let '(ds, r) := more_digits s' in (d :: ds, r)
      | None => ([], s)
      end
  | EmptyString => ([], s)
  end.

Definition number_of (ds : list N) : N :=
  fold_left (fun acc d => (10 * acc + d)%N) ds 0%N.

(** An optional sign; [true] is minus. *)
Definition sign (s : string) : bool * string :=
  match s with
  | String c s' =>
      if Ascii.eqb c "-" then (true, s')
      else if Ascii.eqb c "+" then (false, s')
      else (false, s)
  | EmptyString => (false, s)
  end.

(** [exponent ::= ("e" | "E") ["+" | "-"] digitpart], then end of input.
    The empty string is the absent exponent. *)
Definition exponent (s : string) : option Z :=
  match s with
  | EmptyString => Some 0%Z
  | String c s' =>
      if Ascii.eqb c "e" || Ascii.eqb c "E"
      then let '(neg, s1) := sign s' in
           match digitpart s1 with
           | (d :: ds, EmptyString) =>
               let e := Z.of_N (number_of (d :: ds)) in
               Some (if neg then (- e)%Z else e)
           | _ => None
           end
      else None
  end.

(** [floatnumber]: an integer part and/or a fraction, at least one digit
    between them, and an optional exponent. *)
Definition floatnumber (neg : bool) (s : string) : option pyfloat :=
  let '(ip, s1) := digitpart s in
  let '(fp, s2) :=
    match s1 with
    | String c s1' => if Ascii.eqb c "." then digitpart s1' else ([], s1)
    | EmptyString => ([], s1)
    end in
  match (ip ++ fp)%list with
  | [] => None
  | ds =>
      match exponent s2 with
      | Some e => Some (Finite neg (number_of ds) (e - Z.of_nat (length fp)))
      | None => None
      end
  end.

(** [float(s)]: [None] stands for the [ValueError] Python raises. *)
Definition float (s : string) : option pyfloat :=
  let '(neg, body) := sign (PyStr.strip s) in
  let word := PyStr.lower body in
  if String.eqb word "inf" || String.eqb word "infinity" then Some (Infinity neg)
  else if String.eqb word "nan" then Some NaN
  else floatnumber neg body.


End PyFloat.


(** ** [hashlib.md5(...).hexdigest()] (RFC 1321) *)

Module MD5.

Local Open Scope Z_scope.

Definition mask32 : Z := 0xffffffff.

(** Addition of 32-bit words wraps around. *)
Definition add32 (x y : Z) : Z := Z.land (x + y) mask32.

Definition not32 (x : Z) : Z := Z.lxor x mask32.

Definition rotl32 (x : Z) (c : Z) : Z :=
  Z.land (Z.lor (Z.shiftl x c) (Z.shiftr x (32 - c))) mask32.

(** Per-round shift amounts. *)
Definition S_TABLE : list Z :=
  [ 7; 12; 17; 22; 7; 12; 17; 22; 7; 12; 17; 22; 7; 12; 17; 22;
    5; 9; 14; 20; 5; 9; 14; 20; 5; 9; 14; 20; 5; 9; 14; 20;
    4; 11; 16; 23; 4; 11; 16; 23; 4; 11; 16; 23; 4; 11; 16; 23;
    6; 10; 15; 21; 6; 10; 15; 21; 6; 10; 15; 21; 6; 10; 15; 21 ].

(** [K_TABLE[i] = floor(2^32 * |sin(i + 1)|)]. *)
Definition K_TABLE : list Z :=
  [ 0xd76aa478; 0xe8c7b756; 0x242070db; 0xc1bdceee;
    0xf57c0faf; 0x4787c62a; 0xa8304613; 0xfd469501;
    0x698098d8; 0x8b44f7af; 0xffff5bb1; 0x895cd7be;
    0x6b901122; 0xfd987193; 0xa679438e; 0x49b40821;
    0xf61e2562; 0xc040b340; 0x265e5a51; 0xe9b6c7aa;
    0xd62f105d; 0x02441453; 0xd8a1e681; 0xe7d3fbc8;
    0x21e1cde6; 0xc33707d6; 0xf4d50d87; 0x455a14ed;
    0xa9e3e905; 0xfcefa3f8; 0x676f02d9; 0x8d2a4c8a;
    0xfffa3942; 0x8771f681; 0x6d9d6122; 0xfde5380c;
    0xa4beea44; 0x4bdecfa9; 0xf6bb4b60; 0xbebfbc70;
    0x289b7ec6; 0xeaa127fa; 0xd4ef3085; 0x04881d05;
    0xd9d4d039; 0xe6db99e5; 0x1fa27cf8; 0xc4ac5665;
    0xf4292244; 0x432aff97; 0xab9423a7; 0xfc93a039;
    0x655b59c3; 0x8f0ccc92; 0xffeff47d; 0x85845dd1;
    0x6fa87e4f; 0xfe2ce6e0; 0xa3014314; 0x4e0811a1;
    0xf7537e82; 0xbd3af235; 0x2ad7d2bb; 0xeb86d391 ].

(** The message as bytes: [str.encode()] of an ASCII string. *)
Fixpoint encode (s : string) : list Z :=
  match s with
  | EmptyString => []
  | String c s' => Z.of_nat (nat_of_ascii c) :: encode s'
  end.

(** [n] as [k] little-endian bytes. *)
Fixpoint le_bytes (k : nat) (n : Z) : list Z :=
  match k with
  | O => []
  | S k' => Z.land n 0xff :: le_bytes k' (Z.shiftr n 8)
  end.

(** A one bit, zeros up to 56 modulo 64, then the bit length on 64 bits. *)
Definition pad (msg : list Z) : list Z :=
  let len := Z.of_nat (length msg) in
  let zeros := Z.to_nat ((55 - len) mod 64) in
  (msg ++ [0x80] ++ repeat 0 zeros ++ le_bytes 8 (Z.land (8 * len) 0xffffffffffffffff))%list.

(** Little-endian bytes to a word. *)
Fixpoint word_of_le (bs : list Z) : Z :=
  match bs with
  | [] => 0
  | b :: rest => Z.lor b (Z.shiftl (word_of_le rest) 8)
  end.

(** Cut [n] groups of [size] elements off the front of a list. *)
Fixpoint groups {A} (size n : nat) (l : list A) : list (list A) :=
  match n with
  | O => []
  | S n' => firstn size l :: groups size n' (skipn size l)
  end.

Definition words_of_block (block : list Z) : list Z :=
  map word_of_le (groups 4 16 block).

Definition blocks_of (padded : list Z) : list (list Z) :=
  groups 64 (length padded / 64) padded.

Definition regs : Type := Z * Z * Z * Z.

(** One of the 64 operations on a block. *)
Definition step (M : list Z) (r : regs) (i : nat) : regs :=
  let '(a, b, c, d) := r in
  let '(f, g) :=
    if (i <? 16)%nat then (Z.lor (Z.land b c) (Z.land (not32 b) d), i)
    else if (i <? 32)%nat then
      (Z.lor (Z.land d b) (Z.land (not32 d) c), ((5 * i + 1) mod 16)%nat)
    else if (i <? 48)%nat then
      (Z.lxor b (Z.lxor c d), ((3 * i + 5) mod 16)%nat)
    else (Z.lxor c (Z.lor b (not32 d)), ((7 * i) mod 16)%nat) in
  let f' := add32 (add32 (add32 f a) (nth i K_TABLE 0)) (nth g M 0) in
  (d, add32 b (rotl32 f' (nth i S_TABLE 0)), b, c).

Definition compress (r : regs) (block : list Z) : regs :=
  let M := words_of_block block in
  let '(a, b, c, d) := r in
  let '(a', b', c', d') := fold_left (step M) (seq 0 64) r in
  (add32 a a', add32 b b', add32 c c', add32 d d').

Definition init : regs := (0x67452301, 0xefcdab89, 0x98badcfe, 0x10325476).

(** The 16 digest bytes. *)
Definition digest (msg : list Z) : list Z :=
  let '(a, b, c, d) := fold_left compress (blocks_of (pad msg)) init in
  (le_bytes 4 a ++ le_bytes 4 b ++ le_bytes 4 c ++ le_bytes 4 d)%list.

Definition hex_digit (n : Z) : ascii :=
  ascii_of_nat (Z.to_nat (if n <? 10 then 48 + n else 87 + n)).

Fixpoint hex (bs : list Z) : string :=
  match bs with
  | [] => EmptyString
  | b :: rest =>
      String (hex_digit (Z.shiftr b 4)) (String (hex_digit (Z.land b 0xf)) (hex rest))
  end.

(** [hashlib.md5(s.encode()).hexdigest()] *)
Definition hexdigest (s : string) : string := hex (digest (encode s)).

End MD5.


(** ** Values, product dictionaries and the document store *)

(** Scalar field values.  [ServerTimestamp] is the sentinel
    [firestore.SERVER_TIMESTAMP] a client sends; [Time t] is what the
    server stores in its place. *)
Inductive leaf :=
  | Str (s : string)
  | Float (x : pyfloat)
  | ServerTimestamp
  | Time (t : nat).

(** A field is a scalar or a nested dictionary of scalars (the product
    dictionary nests one level, for [retailer]). *)
Inductive pyvalue :=
  | Leaf (l : leaf)
  | Dict (d : gmap string leaf).

(** A Python [dict] with string keys; also the shape of a stored document. *)
Abbreviation pydict := (gmap string pyvalue).

(** The exceptions of the run.  [GoogleAPICallError] stands for whatever
    the store client raises when a write does not go through. *)
Inductive exn := ValueError | KeyError | AttributeError | GoogleAPICallError.

Module Firestore.

(** The store, keyed by collection name and document id. *)
Abbreviation store := (gmap (string * string) pydict).

(** The server replaces the timestamp sentinel by its own time. *)
Definition resolve_leaf (now : nat) (l : leaf) : leaf :=
  match l with
  | ServerTimestamp => Time now
  | _ => l
  end.

Definition resolve (now : nat) (v : pyvalue) : pyvalue :=
  match v with
  | Leaf l => Leaf (resolve_leaf now l)
  | Dict d => Dict (resolve_leaf now <$> d)
  end.

(** Merging one field.  The update mask of a merge holds the paths of
    the scalars of the data, and the path of a nested dictionary itself
    when that dictionary is empty: a non-empty nested dictionary is merged
    key by key into a stored nested dictionary; anything else, the empty
    dictionary included, replaces what is stored. *)
Definition merge_field (new old : pyvalue) : pyvalue :=
  match new, old with
  | Dict dn, Dict dold => if decide (dn = ∅) then Dict ∅ else Dict (dn ∪ dold)
  | _, _ => new
  end.

Definition merge_doc (new old : pydict) : pydict :=
  union_with (fun n o => Some (merge_field n o)) new old.

(** [collection(c).document(id).set(data, merge=True)], committed at
    server time [now]: the document is created when absent. *)
Definition set_merge (now : nat) (c id : string) (data : pydict) (db : store)
    : store :=
  <[(c, id) := merge_doc (resolve now <$> data) (default ∅ (db !! (c, id)))]> db.

(** The call as the client sees it: it raises and leaves the store alone
    ([raises] says with what), or the merge is applied. *)
Definition set (raises : option exn) (now : nat) (c id : string)
    (data : pydict) (db : store) : exn + store :=
  match raises with
  | Some e => inl e
  | None => inr (set_merge now c id data db)
  end.

(** A scalar inside a nested field of a document. *)
Definition nested (doc : pydict) (k k2 : string) : option leaf :=
  match doc !! k with
  | Some (Dict d) => d !! k2
  | _ => None
  end.

End Firestore.

(** The identity of a product: [hashlib.md5(product['productUrl'].encode()).hexdigest()]. *)
Definition doc_id (product_url : string) : string := MD5.hexdigest product_url.

(** [save_product_to_firestore(product)], committed at server time [now]
    unless the store raises.  A dictionary without the key raises
    [KeyError]; a value that is not a [str] has no [encode]; both happen
    before the store is called. *)
Definition save_product_to_firestore (raises : option exn) (now : nat)
    (product : pydict) (db : Firestore.store) : exn + Firestore.store :=
  match product !! "productUrl" with
  | None => inl KeyError
  | Some (Leaf (Str product_url)) =>
      Firestore.set raises now "retailer_products" (doc_id product_url) product db
  | Some _ => inl AttributeError
  end.

(** ** Page extractor *)

(** What the parser returns for one [<section data-type="ProductCard">]:
    - [name_tag]: the stripped text of the first [h2] or [a] that has a
      string, when there is one;
    - [link_tag]: the [href] of the first [a] carrying one;
    - [img_tag]: the first [img], with its [src] when it has the attribute;
    - [price_tag]: the stripped text of the first [span] of class [value]. *)
Record card := {
  name_tag : option string;
  link_tag : option string;
  img_tag : option (option string);
  price_tag : option string
}.

(** [img_tag['src'] if img_tag and img_tag.has_attr('src') else None] *)
Definition img_src (c : card) : option string :=
  match img_tag c with
  | Some (Some src) => Some src
  | _ => None
  end.

Definition BASE_URL : string := "https://www.countryroad.co.nz".

(** Truthiness of a value that is [None] or a [str]. *)
Definition truthy (o : option string) : bool :=
  match o with
  | Some s => PyStr.nonempty s
  | None => false
  end.

(** [if u and not u.startswith('http'): u = BASE_URL + u] *)
Definition absolutize (u : option string) : option string :=
  match u with
  | Some s =>
      if PyStr.nonempty s && negb (PyStr.startswith "http" s)
      then Some (BASE_URL ++ s)
      else Some s
  | None => None
  end.

(** The text handed to [float]. *)
Definition clean_price (price_text : string) : string :=
  PyStr.strip (PyStr.replace "," "" (PyStr.replace "$" "" (PyStr.replace "NZD" "" price_text))).

(** [float(clean(price_text)) if price_text else None] *)
Definition parse_price (price_text : option string) : exn + option pyfloat :=
  match price_text with
  | Some s =>
      if PyStr.nonempty s
      then match PyFloat.float (clean_price s) with
           | Some x => inr (Some x)
           | None => inl ValueError
           end
      else inr None
  | None => inr None
  end.

Definition make_product (name : string) (price : pyfloat)
    (image_url product_url category color : string) : pydict :=
  <["name" := Leaf (Str name)]>
  (<["brand" := Leaf (Str "Country Road")]>
  (<["price" := Leaf (Float price)]>
  (<["imageUrl" := Leaf (Str image_url)]>
  (<["productUrl" := Leaf (Str product_url)]>
  (<["category" := Leaf (Str category)]>
  (<["color" := Leaf (Str color)]>
  (<["retailer" := Dict (<["id" := Str "countryroad"]>
                        (<["name" := Str "Country Road"]> ∅))]>
  (<["scrapedAt" := Leaf ServerTimestamp]> ∅)))))))).

(** Everything the run does that is visible from outside, in order. *)
Inductive event :=
  | PrintScraping (page_url : string)
  | Get (page_url : string)
  | PrintFetchFailed (page_url : string)
  | SetMerge (id : string) (product : pydict)
  | PrintParseError (e : exn)
  | PrintFound (products_found : nat) (page_url : string)
  | PrintSubcategory (subcat_url : string)
  | PrintNoMore (page_num : nat) (subcat_url : string)
  | Sleep (seconds : nat)
  | PrintFinished (total_products : nat).

Record state := {
  db : Firestore.store;
  trace : list event
}.

Definition emit (e : event) (st : state) : state :=
  {| db := db st; trace := trace st ++ [e] |}.

(** [str(n)] for a non-negative integer. *)
Definition str_of_nat (n : nat) : string :=
  DecimalString.NilEmpty.string_of_uint (Nat.to_uint n).

Definition page_url_of (url : string) (page_number : nat) : string :=
  if (page_number =? 1)%nat then url
  else url ++ "?src=i&page=" ++ str_of_nat page_number.

Section Crawl.

(** The site: what a GET of a URL returns after a given history, [None]
    for any [requests.RequestException] (timeout, connection error,
    non-2xx status), otherwise the product cards the parser finds. *)
Variable web : list event -> string -> option (list card).

(** The store's clock after a given history. *)
Variable server_time : list event -> nat.

(** The store's answer to a write after a given history: [None] when it
    applies the write, otherwise the exception [set] raises. *)
Variable store_error : list event -> option exn.

(** The body of the [try] for one card; [inl] is an exception escaping it. *)
Definition try_card (c : card) (st : state) : exn + (state * nat) :=
  let name := name_tag c in
  let product_url := absolutize (link_tag c) in
  let image_url := absolutize (img_src c) in
  match parse_price (price_tag c) with
  | inl e => inl e
  | inr price =>
      let category :=
        match name with
        | Some n => if PyStr.nonempty n then map_category n else "tops"
        | None => "tops"
        end in
      let color := "" in
      match name, product_url, image_url, price with
      | Some n, Some pu, Some iu, Some x =>
          if PyStr.nonempty n && PyStr.nonempty pu && PyStr.nonempty iu
          then
            let product := make_product n x iu pu category color in
            match save_product_to_firestore (store_error (trace st))
                    (server_time (trace st)) product (db st) with
            | inl e => inl e
            | inr db' =>
                inr ({| db := db'; trace := trace st ++ [SetMerge (doc_id pu) product] |},
                     1%nat)
            end
          else inr (st, 0%nat)
      | _, _, _, _ => inr (st, 0%nat)
      end
  end.

(** The [for section in soup.find_all(...)] loop with its [try/except]. *)
Fixpoint scrape_cards (cards : list card) (st : state) (products_found : nat)
    : state * nat :=
  match cards with
  | [] => (st, products_found)
  | c :: rest =>
      match try_card c st with
      | inr (st', k) => scrape_cards rest st' (products_found + k)
      | inl e => scrape_cards rest (emit (PrintParseError e) st) products_found
      end
  end.

Definition scrape_page (url : string) (page_number : nat) (st : state)
    : state * nat :=
  let page_url := page_url_of url page_number in
  let st1 := emit (PrintScraping page_url) st in
  let response := web (trace st1) page_url in
  let st2 := emit (Get page_url) st1 in
  match response with
  | None => (emit (PrintFetchFailed page_url) st2, 0%nat)
  | Some cards =>
      let '(st3, products_found) := scrape_cards cards st2 0 in
      (emit (PrintFound products_found page_url) st3, products_found)
  end.

(** The [for page_num in range(1, 8)] loop of one subcategory, over the
    page numbers still to visit. *)
Fixpoint crawl_pages (subcat_url : string) (pages : list nat) (st : state)
    (total_products : nat) : state * nat :=
  match pages with
  | [] => (st, total_products)
  | page_num :: rest =>
      let '(st1, num_scraped) := scrape_page subcat_url page_num st in
      if (num_scraped =? 0)%nat
      then (emit (PrintNoMore page_num subcat_url) st1, total_products)
      else crawl_pages subcat_url rest (emit (Sleep 2) st1)
             (total_products + num_scraped)
  end.

Definition crawl_subcategory (subcat_url : string) (st : state)
    (total_products : nat) : state * nat :=
  crawl_pages subcat_url (seq 1 7) (emit (PrintSubcategory subcat_url) st)
    total_products.

(** The [for subcat_url in ...] loop. *)
Fixpoint crawl_subcategories (urls : list string) (st : state)
    (total_products : nat) : state * nat :=
  match urls with
  | [] => (st, total_products)
  | subcat_url :: rest =>
      let '(st', total') := crawl_subcategory subcat_url st total_products in
      crawl_subcategories rest st' total'
  end.

Definition main (st : state) : state * nat :=
  let '(st', total_products) := crawl_subcategories SUBCATEGORY_URLS st 0 in
  (emit (PrintFinished total_products) st', total_products).

End Crawl.

(** ** Vocabulary for the extractor's and the crawl loop's properties *)

(** The card has a non-empty name, link and image source, and a non-empty
    price text that [float] accepts once cleaned. *)
Definition well_formed (c : card) : bool :=
  truthy (name_tag c) && truthy (absolutize (link_tag c)) &&
  truthy (absolutize (img_src c)) &&
  match parse_price (price_tag c) with
  | inr (Some _) => true
  | _ => false
  end.


(** The write a well-formed card causes: document id and data. *)
Definition card_write (c : card) : option (string * pydict) :=
  match name_tag c, absolutize (link_tag c), absolutize (img_src c),
        parse_price (price_tag c) with
  | Some n, Some pu, Some iu, inr (Some x) =>
      if PyStr.nonempty n && PyStr.nonempty pu && PyStr.nonempty iu
      then Some (doc_id pu, make_product n x iu pu (map_category n) "")
      else None
  | _, _, _, _ => None
  end.

(** The exception a card's extraction ends in, if it does. *)
Definition card_error (c : card) : option exn :=
  match parse_price (price_tag c) with
  | inl e => Some e
  | inr _ => None
  end.

(** Projections of a trace. *)
Definition writes (tr : list event) : list (string * pydict) :=
  omap (fun e => match e with SetMerge id p => Some (id, p) | _ => None end) tr.

Definition parse_errors (tr : list event) : list exn :=
  omap (fun e => match e with PrintParseError x => Some x | _ => None end) tr.

Definition gets (tr : list event) : list string :=
  omap (fun e => match e with Get u => Some u | _ => None end) tr.

(** The yield of each page visited: a failed fetch counts for zero. *)
Definition page_yields (tr : list event) : list nat :=
  omap (fun e => match e with
                 | PrintFound n _ => Some n
                 | PrintFetchFailed _ => Some 0%nat
                 | _ => None
                 end) tr.

(** What one card adds to the trace when the store applies every write. *)
Definition card_events_accepted (c : card) : list event :=
  match parse_price (price_tag c) with
  | inl e => [PrintParseError e]
  | inr _ =>
      match card_write c with
      | Some (id, product) => [SetMerge id product]
      | None => []
      end
  end.

(** What one card adds to a trace [tr], the store answering as
    [store_error] says: a refused write is logged in place of the write. *)
Definition card_events (store_error : list event -> option exn)
    (tr : list event) (c : card) : list event :=
  match parse_price (price_tag c) with
  | inl e => [PrintParseError e]
  | inr _ =>
      match card_write c with
      | Some (id, product) =>
          match store_error tr with
          | Some e => [PrintParseError e]
          | None => [SetMerge id product]
          end
      | None => []
      end
  end.

(** What the cards of a page add, one after the other. *)
Fixpoint cards_events (store_error : list event -> option exn)
    (tr : list event) (cards : list card) : list event :=
  match cards with
  | [] => []
  | c :: rest =>
      card_events store_error tr c ++
      cards_events store_error (tr ++ card_events store_error tr c) rest
  end.

(** The events one call of [scrape_page] adds to a trace [tr], as a
    function of what the site and the store answer. *)
Definition page_events (store_error : list event -> option exn)
    (tr : list event) (response : option (list card)) (page_url : string)
    : list event :=
  [PrintScraping page_url; Get page_url] ++
  match response with
  | None => [PrintFetchFailed page_url]
  | Some cards =>
      cards_events store_error (tr ++ [PrintScraping page_url; Get page_url]) cards ++
      [PrintFound
         (length (writes (cards_events store_error
                            (tr ++ [PrintScraping page_url; Get page_url]) cards)))
         page_url]
  end.

Definition page_yield (store_error : list event -> option exn)
    (tr : list event) (response : option (list card)) (page_url : string) : nat :=
  match response with
  | None => 0
  | Some cards =>
      length (writes (cards_events store_error
                        (tr ++ [PrintScraping page_url; Get page_url]) cards))
  end.

(** What the site answers when [scrape_page] asks from state [st]. *)
Definition response_at (web : list event -> string -> option (list card))
    (url : string) (page_number : nat) (st : state) : option (list card) :=
  web (trace st ++ [PrintScraping (page_url_of url page_number)])%list
      (page_url_of url page_number).

(** The events and the yield of the page [scrape_page] visits from [st]. *)
Definition page_events_at (web : list event -> string -> option (list card))
    (store_error : list event -> option exn)
    (url : string) (page_number : nat) (st : state) : list event :=
  page_events store_error (trace st) (response_at web url page_number st)
    (page_url_of url page_number).

Definition page_yield_at (web : list event -> string -> option (list card))
    (store_error : list event -> option exn)
    (url : string) (page_number : nat) (st : state) : nat :=
  page_yield store_error (trace st) (response_at web url page_number st)
    (page_url_of url page_number).

(** The part of a page's trace that one card accounts for: the logged
    exception of a price that is not a number, nothing for a card that
    lacks an element, and for a well-formed card its write, or the logged
    exception of a write the store refused. *)
Definition card_segment (c : card) (seg : list event) : Prop :=
  match card_error c, card_write c with
  | Some e, _ => seg = [PrintParseError e]
  | None, None => seg = []
  | None, Some (id, product) =>
      seg = [SetMerge id product] \/ exists e, seg = [PrintParseError e]
  end.

(** One subcategory's part of a trace: pages [1..k] fetched once each in
    increasing order, [1 <= k <= 7], every page before the last with a
    positive yield, and the last one with yield zero unless it is page 7. *)
Definition section_visit (url : string) (seg : list event) : Prop :=
  exists ys pos,
    gets seg = map (page_url_of url) (seq 1 (length ys)) /\
    page_yields seg = ys /\
    (1 <= length ys <= 7)%nat /\
    Forall (fun n => 0 < n)%nat pos /\
    (ys = (pos ++ [0%nat])%list \/ (ys = pos /\ length pos = 7%nat)).

(** The write is the one some card causes. *)
Definition from_card (w : string * pydict) : Prop :=
  exists c, card_write c = Some w.

(** The keys of a product dictionary. *)
Definition PRODUCT_KEYS : gset string :=
  list_to_set ["name"; "brand"; "price"; "imageUrl"; "productUrl"; "category";
               "color"; "retailer"; "scrapedAt"].

(** URI schemes (RFC 3986): a letter, then letters, digits, [+], [-] or
    [.], up to a colon. *)
Definition is_alpha (c : ascii) : bool :=
  let n := nat_of_ascii c in
  ((65 <=? n)%nat && (n <=? 90)%nat) || ((97 <=? n)%nat && (n <=? 122)%nat).

Definition is_scheme_char (c : ascii) : bool :=
  let n := nat_of_ascii c in
  is_alpha c || ((48 <=? n)%nat && (n <=? 57)%nat) ||
  Ascii.eqb c "+" || Ascii.eqb c "-" || Ascii.eqb c ".".

Fixpoint scheme_rest (s : string) : bool :=
  match s with
  | EmptyString => false
  | String c s' =>
      if Ascii.eqb c ":" then true
      else if is_scheme_char c then scheme_rest s' else false
  end.

Definition has_scheme (s : string) : bool :=
  match s with
  | String c s' => is_alpha c && scheme_rest s'
  | EmptyString => false
  end.

(** ** Vocabulary for the run as a whole *)

(** The pauses of a trace, in seconds. *)
Definition sleeps (tr : list event) : list nat :=
  omap (fun e => match e with Sleep n => Some n | _ => None end) tr.

(** The yields above zero. *)
Definition positive_yields (ys : list nat) : list nat :=
  List.filter (fun n => (0 <? n)%nat) ys.

(** The store keys a list of writes goes to. *)
Definition written_keys (ws : list (string * pydict)) : gset (string * string) :=
  list_to_set (map (fun w => ("retailer_products", fst w)) ws).

(** The document stored for [id] carries a [productUrl] whose digest is
    [id], and a [scrapedAt] that is a server time. *)
Definition stored_under_identity (id : string) (d : Firestore.store) : Prop :=
  exists doc pu t,
    d !! ("retailer_products", id) = Some doc /\
    doc !! "productUrl" = Some (Leaf (Str pu)) /\
    doc_id pu = id /\
    doc !! "scrapedAt" = Some (Leaf (Time t)).

(** Lower-case hexadecimal digits. *)
Definition is_hex_char (c : ascii) : bool :=
  let n := nat_of_ascii c in
  ((48 <=? n)%nat && (n <=? 57)%nat) || ((97 <=? n)%nat && (n <=? 102)%nat).

Fixpoint all_chars (f : ascii -> bool) (s : string) : bool :=
  match s with
  | EmptyString => true
  | String c s' => f c && all_chars f s'
  end.

(** Every page a run could ask for: pages 1 to 7 of each subcategory. *)
Definition all_page_urls (urls : list string) : list string :=
  flat_map (fun url => map (page_url_of url) (seq 1 7)) urls.

(** A site that is down: every request fails. *)
Definition dead_web : list event -> string -> option (list card) :=
  fun _ _ => None.

(** The category table without the keywords [t-shirt], [pants],
    [overshirt] and the [duffle] of accessories. *)
Definition PRUNED_KEYWORDS : list (string * list string) :=
  [ ("tops", ["shirt"; "tee"; "polo"; "knit"; "sweat"; "jumper";
              "crew"; "henley"; "singlet"; "tank"; "top"]);
    ("bottoms", ["pant"; "jean"; "short"; "trouser"; "chino";
                 "track"; "jogger"; "suit"]);
    ("shoes", ["shoe"; "sneaker"; "boot"; "loafer"; "slide"; "thong"]);
    ("outerwear", ["jacket"; "coat"; "blazer"; "duffle"]);
    ("accessories", ["belt"; "bag"; "wallet"; "tie"; "sock"; "scarf"; "hat"]) ].

(** [map_category] over a table of one's choice. *)
Definition map_category_with (table : list (string * list string))
    (name : string) : string :=
  match scan_categories table (PyStr.lower name) with
  | Some category => category
  | None => "tops"
  end.

(** What a stretch of the run from [st] to [st'] does to the store: the
    documents written are there, under their identities, and nothing
    else has changed. *)
Definition run_effect (st st' : state) : Prop :=
  exists new,
    trace st' = (trace st ++ new)%list /\
    dom (db st') = dom (db st) ∪ written_keys (writes new) /\
    (forall key, key ∉ written_keys (writes new) -> db st' !! key = db st !! key) /\
    (forall w, In w (writes new) -> stored_under_identity (fst w) (db st')).

(** The addresses of pages 1 to [k] of a subcategory. *)
Definition pages_requested (url : string) (k : nat) : list string :=
  map (page_url_of url) (seq 1 k).

(** Events that are neither a page's closing line nor a pause. *)
Definition quiet (e : event) : Prop :=
  match e with
  | PrintFound _ _ | PrintFetchFailed _ | Sleep _ => False
  | _ => True
  end.

(** Traces in which every page's closing line is followed at once by
    what the loop does next: a pause of two seconds after a page that
    yielded something, the "no more products" line after a page that
    yielded nothing or could not be fetched; and in which a pause occurs
    nowhere else. *)
Inductive paced : list event -> Prop :=
  | paced_nil : paced []
  | paced_productive n u tr :
      (0 < n)%nat -> paced tr -> paced (PrintFound n u :: Sleep 2 :: tr)
  | paced_empty u p url tr :
      paced tr -> paced (PrintFound 0 u :: PrintNoMore p url :: tr)
  | paced_failed u p url tr :
      paced tr -> paced (PrintFetchFailed u :: PrintNoMore p url :: tr)
  | paced_quiet e tr : quiet e -> paced tr -> paced (e :: tr).

(** The events of a subcategory whose first page cannot be fetched. *)
Definition failed_visit (url : string) : list event :=
  [PrintSubcategory url; PrintScraping url; Get url; PrintFetchFailed url;
   PrintNoMore 1 url].

(** ** Sample data *)

Definition sample_url : string :=
  "https://www.countryroad.co.nz/p/oxford-shirt-60281234".
Definition first_write : pydict :=
  make_product "Oxford Shirt" (Finite false 12900 (-2))
    "https://www.countryroad.co.nz/img/60281234.jpg" sample_url "tops" "".
Definition second_write : pydict :=
  <["productUrl" := Leaf (Str sample_url)]> (<["color" := Leaf (Str "Navy")]> ∅).
Definition stored_after_first : Firestore.store :=
  Firestore.set_merge 1 "retailer_products" (doc_id sample_url) first_write ∅.

Definition sample_card (slug : string) : card :=
  {| name_tag := Some ("Linen Shirt " ++ slug);
     link_tag := Some ("/p/linen-shirt-" ++ slug);
     img_tag := Some (Some ("/img/linen-shirt-" ++ slug ++ ".jpg"));
     price_tag := Some "NZD $129.00" |}.

Definition ten_cards : list card :=
  map sample_card ["a"; "b"; "c"; "d"; "e"; "f"; "g"; "h"; "i"; "j"].

(** A card whose markup has no price element. *)
Definition card_without_price : card :=
  {| name_tag := Some "Linen Shirt c";
     link_tag := Some "/p/linen-shirt-c";
     img_tag := Some (Some "/img/linen-shirt-c.jpg");
     price_tag := None |}.

(** A card whose price text is not a number. *)
Definition card_with_bad_price : card :=
  {| name_tag := Some "Linen Shirt c";
     link_tag := Some "/p/linen-shirt-c";
     img_tag := Some (Some "/img/linen-shirt-c.jpg");
     price_tag := Some "Sold out" |}.


Definition five_cards_one_without_price : list card :=
  [sample_card "a"; sample_card "b"; card_without_price;
   sample_card "d"; sample_card "e"].

Definition five_cards_one_with_bad_price : list card :=
  [sample_card "a"; sample_card "b"; card_with_bad_price;
   sample_card "d"; sample_card "e"].

Definition sample_section : string :=
  "https://www.countryroad.co.nz/man-clothing-chinos/".

(** A site on which [sample_section] has three pages of ten cards and an
    empty fourth page, and every other request fails. *)
Definition sample_web : list event -> string -> option (list card) :=
  fun _ u =>
    if String.eqb u (page_url_of sample_section 4) then Some []
    else if PyStr.startswith sample_section u then Some ten_cards
    else None.

(** A site that serves one fixed page of cards at every URL. *)
Definition one_page_web (cards : list card)
    : list event -> string -> option (list card) :=
  fun _ _ => Some cards.

(** A store that applies every write, and one that refuses every write. *)
Definition accepting_store : list event -> option exn := fun _ => None.
Definition refusing_store : list event -> option exn :=
  fun _ => Some GoogleAPICallError.

(** A server clock that ticks with every event. *)
Definition sample_clock : list event -> nat := fun h => length h.

Definition initial_state : state := {| db := ∅; trace := [] |}.

(** The card of [sample_card "a"] listed a second time, renamed and
    repriced. *)
Definition sample_card_again : card :=
  {| name_tag := Some "Linen Shirt a (new season)";
     link_tag := Some "/p/linen-shirt-a";
     img_tag := Some (Some "/img/linen-shirt-a-2.jpg");
     price_tag := Some "$99.00" |}.

(** * Properties *)

(** ** Category classifier *)

Lemma scan_keywords_existsb category keywords s :
  scan_keywords category keywords s =
  if existsb (fun kw => PyStr.contains kw s) keywords then Some category else None.
Proof.
  induction keywords as [|kw rest IH]; cbn [scan_keywords existsb]; [reflexivity|].
  destruct (PyStr.contains kw s); cbn [orb]; [reflexivity | exact IH].
Qed.

(** The classifier is a cascade over the five labels in table order. *)
Lemma map_category_cascade name :
  map_category name =
  if has_keyword_of "tops" name then "tops"
  else if has_keyword_of "bottoms" name then "bottoms"
  else if has_keyword_of "shoes" name then "shoes"
  else if has_keyword_of "outerwear" name then "outerwear"
  else if has_keyword_of "accessories" name then "accessories"
  else "tops".
Proof.
  unfold map_category, has_keyword_of, keywords_of, CATEGORY_KEYWORDS.
  cbn [scan_categories keywords_in String.eqb Ascii.eqb Bool.eqb].
  rewrite !scan_keywords_existsb.
  repeat match goal with
         | |- context [existsb ?f ?l] => destruct (existsb f l)
         end; reflexivity.
Qed.

Lemma category_labels_cases c :
  In c category_labels ->
  c = "tops" \/ c = "bottoms" \/ c = "shoes" \/ c = "outerwear" \/ c = "accessories".
Proof. cbn. intuition auto. Qed.

Lemma position_in_nth_error labels c i :
  position_in labels c = Some i -> nth_error labels i = Some c.
Proof.
  revert i. induction labels as [|l rest IH]; intros i; cbn [position_in].
  - discriminate.
  - destruct (String.eqb_spec l c) as [->|Hne].
    + intros [= <-]. reflexivity.
    + destruct (position_in rest c) as [k|]; cbn [option_map]; [|discriminate].
      intros [= <-]. cbn [nth_error]. apply IH. reflexivity.
Qed.

Lemma declared_before_positions c1 c2 :
  declared_before c1 c2 ->
  exists i j, nth_error category_labels i = Some c1 /\
              nth_error category_labels j = Some c2 /\ (i < j)%nat.
Proof.
  unfold declared_before.
  destruct (position_in category_labels c1) as [i|] eqn:E1; [|contradiction].
  destruct (position_in category_labels c2) as [j|] eqn:E2; [|contradiction].
  intros Hlt. exists i, j. auto using position_in_nth_error.
Qed.

Lemma nth_error_category_labels i c :
  nth_error category_labels i = Some c ->
  (i = 0%nat /\ c = "tops") \/ (i = 1%nat /\ c = "bottoms") \/
  (i = 2%nat /\ c = "shoes") \/ (i = 3%nat /\ c = "outerwear") \/
  (i = 4%nat /\ c = "accessories").
Proof.
  do 5 (destruct i as [|i]; [cbn; intros [= <-]; auto 10|]).
  cbn. destruct i; discriminate.
Qed.

(** Decides the cascade from the facts at hand: [H] says which labels
    have no keyword in [name]. *)
Ltac settle_cascade name H :=
  rewrite map_category_cascade;
  repeat match goal with
         | Hyes : has_keyword_of ?c name = true |- _ => rewrite Hyes
         | |- context [if has_keyword_of ?c name then _ else _] =>
             rewrite (H c) by solve [cbn; auto 10 | discriminate]
         end;
  reflexivity.

(** C3. [map_category] returns the one category whose keyword list has a
    keyword occurring in the (lower-cased) name; when two categories have
    one, the category declared earlier in the table; and ['tops'] when no
    category has one, in particular for the empty name. *)
Theorem map_category_table_order (name : string) :
  (forall c, In c category_labels ->
     has_keyword_of c name = true ->
     (forall c', In c' category_labels -> c' <> c -> has_keyword_of c' name = false) ->
     map_category name = c) /\
  (forall c1 c2, declared_before c1 c2 ->
     has_keyword_of c1 name = true ->
     has_keyword_of c2 name = true ->
     (forall c', In c' category_labels -> c' <> c1 -> c' <> c2 ->
                 has_keyword_of c' name = false) ->
     map_category name = c1) /\
  ((forall c, In c category_labels -> has_keyword_of c name = false) ->
     map_category name = "tops") /\
  map_category "" = "tops".
Proof.
  split; [|split; [|split]].
  - intros c Hin Hc Hothers.
    apply category_labels_cases in Hin.
    destruct Hin as [->|[->|[->|[->| ->]]]]; settle_cascade name Hothers.
  - intros c1 c2 Hbefore H1 H2 Hothers.
    destruct (declared_before_positions _ _ Hbefore) as (i & j & Hi & Hj & Hlt).
    apply nth_error_category_labels in Hi, Hj.
    destruct Hi as [[-> ->]|[[-> ->]|[[-> ->]|[[-> ->]|[-> ->]]]]];
      destruct Hj as [[-> ->]|[[-> ->]|[[-> ->]|[[-> ->]|[-> ->]]]]];
      try lia; settle_cascade name Hothers.
  - intros Hnone. settle_cascade name Hnone.
  - reflexivity.
Qed.

(** A name with keywords of one category, one with keywords of two, and
    one with none. *)
Lemma map_category_table_order_witness :
  map_category "Linen Pant" = "bottoms" /\
  map_category "Leather Boot Bag" = "shoes" /\
  map_category "Gift Card" = "tops".
Proof.
  split; [|split].
  - apply (proj1 (map_category_table_order "Linen Pant") "bottoms").
    + cbn. auto.
    + vm_compute. reflexivity.
    + intros c' Hin Hne. apply category_labels_cases in Hin.
      destruct Hin as [->|[->|[->|[->| ->]]]];
        solve [vm_compute; reflexivity | contradiction].
  - apply (proj1 (proj2 (map_category_table_order "Leather Boot Bag")) "shoes" "accessories").
    + vm_compute. lia.
    + vm_compute. reflexivity.
    + vm_compute. reflexivity.
    + intros c' Hin Hne1 Hne2. apply category_labels_cases in Hin.
      destruct Hin as [->|[->|[->|[->| ->]]]];
        solve [vm_compute; reflexivity | contradiction].
  - apply (proj1 (proj2 (proj2 (map_category_table_order "Gift Card")))).
    intros c Hin. apply category_labels_cases in Hin.
    destruct Hin as [->|[->|[->|[->| ->]]]]; vm_compute; reflexivity.
Defined.

(** ** Document store *)

Module FirestoreFacts.
Import Firestore.

Lemma merge_doc_lookup (new old : pydict) k :
  merge_doc new old !! k =
  match new !! k, old !! k with
  | Some n, Some o => Some (merge_field n o)
  | Some n, None => Some n
  | None, o => o
  end.
Proof.
  unfold merge_doc. rewrite lookup_union_with.
  destruct (new !! k), (old !! k); reflexivity.
Qed.

Lemma set_merge_lookup (now : nat) (c id : string) (data : pydict) (db : store) :
  set_merge now c id data db !! (c, id) =
  Some (merge_doc (resolve now <$> data) (default ∅ (db !! (c, id)))).
Proof. unfold set_merge. apply lookup_insert_eq. Qed.

Lemma set_merge_lookup_ne (now : nat) (c id : string) (data : pydict) (db : store) key :
  key <> (c, id) -> set_merge now c id data db !! key = db !! key.
Proof. intros Hne. unfold set_merge. apply lookup_insert_ne. congruence. Qed.

Lemma set_merge_dom (now : nat) (c id : string) (data : pydict) (db : store) :
  dom (set_merge now c id data db) = {[ (c, id) ]} ∪ dom db.
Proof. unfold set_merge. apply dom_insert_L. Qed.

(** An empty nested dictionary replaces what is stored. *)
Lemma merge_field_empty old : merge_field (Dict ∅) old = Dict ∅.
Proof. destruct old as [l|d]; cbn; [reflexivity|]. case_decide; [reflexivity | congruence]. Qed.

(** A non-empty one is laid over the nested dictionary that is stored. *)
Lemma merge_field_nonempty (dn : gmap string leaf) old :
  dn <> ∅ ->
  merge_field (Dict dn) old =
  Dict (dn ∪ match old with Dict dold => dold | Leaf _ => ∅ end).
Proof.
  intros Hne. destruct old as [l|d]; cbn.
  - rewrite (right_id ∅ (∪)). reflexivity.
  - case_decide; [contradiction | reflexivity].
Qed.

(** Writing the same field value over its own merge changes nothing. *)
Lemma merge_field_twice v o : merge_field v (merge_field v o) = merge_field v o.
Proof.
  destruct v as [l|d]; [destruct o; reflexivity|].
  destruct (decide (d = ∅)) as [->|Hne].
  - rewrite !merge_field_empty. reflexivity.
  - rewrite !(merge_field_nonempty d) by exact Hne.
    f_equal. rewrite (assoc (∪)). f_equal. apply (idemp (∪)).
Qed.

End FirestoreFacts.

Section Persistence.
Import Firestore FirestoreFacts.

Lemma merge_field_self v : merge_field v v = v.
Proof.
  destruct v as [l|d]; [reflexivity|].
  destruct (decide (d = ∅)) as [->|Hne].
  - apply merge_field_empty.
  - rewrite merge_field_nonempty by exact Hne. f_equal. apply (idemp (∪)).
Qed.

Lemma save_product_ok (now : nat) (product : pydict) (url : string) (db : store) :
  product !! "productUrl" = Some (Leaf (Str url)) ->
  save_product_to_firestore None now product db =
  inr (set_merge now "retailer_products" (doc_id url) product db).
Proof. intros H. unfold save_product_to_firestore. rewrite H. reflexivity. Qed.

Lemma save_product_refused (e : exn) (now : nat) (product : pydict) (url : string)
    (db : store) :
  product !! "productUrl" = Some (Leaf (Str url)) ->
  save_product_to_firestore (Some e) now product db = inl e.
Proof. intros H. unfold save_product_to_firestore. rewrite H. reflexivity. Qed.

Lemma make_product_url n x iu pu cat col :
  make_product n x iu pu cat col !! "productUrl" = Some (Leaf (Str pu)).
Proof. reflexivity. Qed.

Lemma make_product_scrapedAt n x iu pu cat col :
  make_product n x iu pu cat col !! "scrapedAt" = Some (Leaf ServerTimestamp).
Proof. reflexivity. Qed.

(** Apart from [scrapedAt], no field of a product holds the sentinel. *)
Lemma make_product_static n x iu pu cat col k v now :
  k <> "scrapedAt" ->
  make_product n x iu pu cat col !! k = Some v ->
  resolve now v = v.
Proof.
  intros Hk. unfold make_product.
  repeat (rewrite lookup_insert; case_decide;
          [ subst k; try congruence; intros [= <-]; try reflexivity | ]).
  rewrite lookup_empty. discriminate.
Qed.

End Persistence.

Section PersistenceClaims.
Import Firestore FirestoreFacts.

(** Two product dictionaries that agree on [productUrl], written at any
    times into any stores, both land under the one key [doc_id url] of
    the products collection, and no other key of the store appears. *)
Lemma identity_from_product_url_alone (p q : pydict) (url : string)
    (t1 t2 : nat) (db1 db2 : store) :
  p !! "productUrl" = Some (Leaf (Str url)) ->
  q !! "productUrl" = Some (Leaf (Str url)) ->
  exists db1' db2',
    save_product_to_firestore None t1 p db1 = inr db1' /\
    save_product_to_firestore None t2 q db2 = inr db2' /\
    is_Some (db1' !! ("retailer_products", doc_id url)) /\
    is_Some (db2' !! ("retailer_products", doc_id url)) /\
    dom db1' = {[ ("retailer_products", doc_id url) ]} ∪ dom db1 /\
    dom db2' = {[ ("retailer_products", doc_id url) ]} ∪ dom db2.
Proof.
  intros Hp Hq.
  eexists _, _. split; [|split].
  - apply save_product_ok, Hp.
  - apply save_product_ok, Hq.
  - rewrite !set_merge_lookup, !set_merge_dom. eauto.
Qed.

(** C8. A write the store applies merges into the stored document: a
    scalar field of the new record replaces the stored one; a nested
    field that is not empty is merged key by key, its keys overwriting
    and the stored keys it does not carry staying; a nested field that
    is empty replaces the stored one; a field the new record does not
    carry keeps its stored value; and no other document changes. *)
Theorem save_product_merge_frame (now : nat) (product : pydict) (url : string)
    (db : store) :
  product !! "productUrl" = Some (Leaf (Str url)) ->
  exists db' doc,
    save_product_to_firestore None now product db = inr db' /\
    db' !! ("retailer_products", doc_id url) = Some doc /\
    (forall k l, product !! k = Some (Leaf l) ->
       doc !! k = Some (Leaf (resolve_leaf now l))) /\
    (forall k, product !! k = Some (Dict ∅) -> doc !! k = Some (Dict ∅)) /\
    (forall k d k2 l, product !! k = Some (Dict d) -> d !! k2 = Some l ->
       nested doc k k2 = Some (resolve_leaf now l)) /\
    (forall k d k2, product !! k = Some (Dict d) -> d <> ∅ -> d !! k2 = None ->
       nested doc k k2 =
       nested (default ∅ (db !! ("retailer_products", doc_id url))) k k2) /\
    (forall k, product !! k = None ->
       doc !! k = default ∅ (db !! ("retailer_products", doc_id url)) !! k) /\
    (forall key, key <> ("retailer_products", doc_id url) -> db' !! key = db !! key).
Proof.
  intros Hurl.
  set (old := default ∅ (db !! ("retailer_products", doc_id url))).
  assert (Hnested : forall k d doc',
            product !! k = Some (Dict d) -> d <> ∅ ->
            doc' = merge_doc (resolve now <$> product) old ->
            forall k2, nested doc' k k2 =
                       match (resolve_leaf now <$> d) !! k2 with
                       | Some l => Some l
                       | None => nested old k k2
                       end).
  { intros k d doc' Hk Hne -> k2. unfold nested.
    rewrite merge_doc_lookup, lookup_fmap, Hk.
    change (resolve now <$> Some (Dict d))
      with (Some (Dict (resolve_leaf now <$> d))).
    assert (Hne' : resolve_leaf now <$> d <> ∅)
      by (intros He; apply fmap_empty_inv in He; contradiction).
    destruct (old !! k) as [o|].
    - rewrite (merge_field_nonempty _ o Hne'), lookup_union.
      destruct ((resolve_leaf now <$> d) !! k2), o as [lo|dold]; cbn;
        rewrite ?lookup_empty; try reflexivity.
      all: destruct (dold !! k2); reflexivity.
    - destruct ((resolve_leaf now <$> d) !! k2); reflexivity. }
  eexists _, _. split; [apply save_product_ok, Hurl|].
  split; [apply set_merge_lookup|]. fold old.
  split; [|split; [|split; [|split; [|split]]]].
  - intros k l Hk. rewrite merge_doc_lookup, lookup_fmap, Hk. cbn.
    destruct (old !! k); reflexivity.
  - intros k Hk. rewrite merge_doc_lookup, lookup_fmap, Hk.
    change (resolve now <$> Some (Dict ∅))
      with (Some (Dict (resolve_leaf now <$> (∅ : gmap string leaf)))).
    rewrite fmap_empty. destruct (old !! k); [|reflexivity].
    rewrite merge_field_empty. reflexivity.
  - intros k d k2 l Hk Hk2.
    rewrite (Hnested k d _ Hk) by (reflexivity || (intros ->; discriminate)).
    rewrite lookup_fmap, Hk2. reflexivity.
  - intros k d k2 Hk Hne Hk2.
    rewrite (Hnested k d _ Hk Hne eq_refl), lookup_fmap, Hk2. reflexivity.
  - intros k Hk. rewrite merge_doc_lookup, lookup_fmap, Hk. reflexivity.
  - intros key Hne. apply set_merge_lookup_ne, Hne.
Qed.

Lemma save_product_merge_frame_witness :
  exists db' doc,
    save_product_to_firestore None 2 second_write stored_after_first = inr db' /\
    db' !! ("retailer_products", doc_id sample_url) = Some doc /\
    doc !! "color" = Some (Leaf (Str "Navy")) /\
    doc !! "name" = Some (Leaf (Str "Oxford Shirt")) /\
    nested doc "retailer" "id" = Some (Str "countryroad").
Proof.
  destruct (save_product_merge_frame 2 second_write sample_url stored_after_first)
    as (db' & doc & Hsave & Hdoc & Hleaf & _ & _ & _ & Habsent & _).
  { reflexivity. }
  exists db', doc. repeat split; try assumption.
  - apply (Hleaf "color" (Str "Navy")). reflexivity.
  - rewrite Habsent by reflexivity. vm_compute. reflexivity.
  - unfold nested. rewrite Habsent by reflexivity. vm_compute. reflexivity.
Defined.

(** C7. Writing the same product twice keeps one document under its
    identity: the second write creates no document and touches no other
    one, every field but [scrapedAt] reads the same after either write,
    and [scrapedAt] holds the server time of the latest write. *)
Theorem upsert_twice_idempotent (n : string) (x : pyfloat)
    (iu pu cat col : string) (t1 t2 : nat) (db : store) :
  exists db1 db2 d1 d2,
    save_product_to_firestore None t1 (make_product n x iu pu cat col) db = inr db1 /\
    save_product_to_firestore None t2 (make_product n x iu pu cat col) db1 = inr db2 /\
    db1 !! ("retailer_products", doc_id pu) = Some d1 /\
    db2 !! ("retailer_products", doc_id pu) = Some d2 /\
    dom db2 = dom db1 /\
    (forall key, key <> ("retailer_products", doc_id pu) -> db2 !! key = db1 !! key) /\
    (forall k, k <> "scrapedAt" -> d2 !! k = d1 !! k) /\
    d1 !! "scrapedAt" = Some (Leaf (Time t1)) /\
    d2 !! "scrapedAt" = Some (Leaf (Time t2)).
Proof.
  set (p := make_product n x iu pu cat col).
  set (old := default ∅ (db !! ("retailer_products", doc_id pu))).
  eexists _, _, _, _.
  split; [apply save_product_ok, make_product_url|].
  split; [apply save_product_ok, make_product_url|].
  split; [apply set_merge_lookup|].
  split; [apply set_merge_lookup|].
  rewrite set_merge_lookup. cbn [default from_option id]. fold p old.
  repeat split.
  - rewrite !set_merge_dom, (assoc_L (∪)), (idemp_L (∪)). reflexivity.
  - intros key Hne. apply set_merge_lookup_ne, Hne.
  - intros k Hk. rewrite !merge_doc_lookup, !lookup_fmap.
    destruct (p !! k) as [v|] eqn:Hv; cbn; [|reflexivity].
    rewrite !(make_product_static _ _ _ _ _ _ _ _ _ Hk Hv).
    destruct (old !! k); f_equal; auto using merge_field_twice, merge_field_self.
  - rewrite merge_doc_lookup, lookup_fmap. subst p.
    rewrite make_product_scrapedAt. cbn. destruct (old !! "scrapedAt"); reflexivity.
  - rewrite !merge_doc_lookup, !lookup_fmap. subst p.
    rewrite make_product_scrapedAt. cbn. destruct (old !! "scrapedAt"); reflexivity.
Qed.

End PersistenceClaims.

(** ** Page extractor *)

Lemma absolutize_nonempty u : truthy (absolutize u) = truthy u.
Proof.
  destruct u as [s|]; [|reflexivity]. cbn.
  destruct (PyStr.nonempty s) eqn:Hs; cbn; [|exact Hs].
  destruct (PyStr.startswith "http" s); cbn; [exact Hs | reflexivity].
Qed.

Lemma absolutize_http u s :
  absolutize u = Some s -> PyStr.nonempty s = true ->
  PyStr.startswith "http" s = true.
Proof.
  destruct u as [s0|]; [|discriminate]. cbn.
  destruct (PyStr.nonempty s0) eqn:Hs; cbn.
  - destruct (PyStr.startswith "http" s0) eqn:Hp; cbn; intros [= <-]; auto.
  - intros [= <-]. congruence.
Qed.

Lemma card_write_well_formed c :
  is_Some (card_write c) <-> well_formed c = true.
Proof.
  unfold card_write, well_formed.
  destruct (name_tag c) as [n|]; cbn;
    [|split; [intros [? ?]|]; discriminate].
  destruct (absolutize (link_tag c)) as [pu|]; cbn;
    [|rewrite andb_false_r; split; [intros [? ?]|]; discriminate].
  destruct (absolutize (img_src c)) as [iu|]; cbn;
    [|rewrite !andb_false_r; split; [intros [? ?]|]; discriminate].
  destruct (parse_price (price_tag c)) as [e|[x|]]; cbn;
    rewrite ?andb_false_r, ?andb_true_r;
    try (split; [intros [? ?]|]; discriminate).
  destruct (PyStr.nonempty n && PyStr.nonempty pu && PyStr.nonempty iu).
  - split; eauto.
  - split; [intros [? ?]|]; discriminate.
Qed.

Lemma omap_cons {A B} (f : A -> option B) (x : A) (l : list A) :
  omap f (x :: l) = match f x with Some y => y :: omap f l | None => omap f l end.
Proof. reflexivity. Qed.

Lemma card_error_no_write c e : card_error c = Some e -> card_write c = None.
Proof.
  unfold card_error, card_write.
  destruct (parse_price (price_tag c)); [intros _ | discriminate].
  destruct (name_tag c), (absolutize (link_tag c)), (absolutize (img_src c));
    reflexivity.
Qed.

Lemma card_write_no_error c w : card_write c = Some w -> card_error c = None.
Proof.
  intros Hw. destruct (card_error c) as [e|] eqn:He; [|reflexivity].
  rewrite (card_error_no_write _ _ He) in Hw. discriminate.
Qed.

Lemma card_events_error se tr c e :
  card_error c = Some e -> card_events se tr c = [PrintParseError e].
Proof.
  unfold card_error, card_events.
  destruct (parse_price (price_tag c)); [intros [= ->]; reflexivity | discriminate].
Qed.

Lemma card_events_no_error se tr c :
  card_error c = None ->
  card_events se tr c =
  match card_write c with
  | Some (id, product) =>
      match se tr with
      | Some e => [PrintParseError e]
      | None => [SetMerge id product]
      end
  | None => []
  end.
Proof.
  unfold card_error, card_events.
  destruct (parse_price (price_tag c)); [discriminate | reflexivity].
Qed.

Lemma card_events_accepted_error c e :
  card_error c = Some e -> card_events_accepted c = [PrintParseError e].
Proof.
  unfold card_error, card_events_accepted.
  destruct (parse_price (price_tag c)); [intros [= ->]; reflexivity | discriminate].
Qed.

Lemma card_events_accepted_no_error c :
  card_error c = None ->
  card_events_accepted c =
  match card_write c with
  | Some (id, product) => [SetMerge id product]
  | None => []
  end.
Proof.
  unfold card_error, card_events_accepted.
  destruct (parse_price (price_tag c)); [discriminate | reflexivity].
Qed.

(** With a store that applies every write, what a card adds does not
    depend on the trace. *)
Lemma cards_events_accepting se tr cards :
  (forall h, se h = None) ->
  cards_events se tr cards = flat_map card_events_accepted cards.
Proof.
  intros Hacc. revert tr. induction cards as [|c rest IH]; intros tr; [reflexivity|].
  cbn [cards_events flat_map]. rewrite IH. f_equal.
  unfold card_events, card_events_accepted. rewrite Hacc. reflexivity.
Qed.

(** Each card accounts for its own part of the page's trace. *)
Lemma cards_events_segments se tr cards :
  exists segs,
    cards_events se tr cards = concat segs /\ Forall2 card_segment cards segs.
Proof.
  revert tr. induction cards as [|c rest IH]; intros tr.
  - exists []. split; [reflexivity | constructor].
  - destruct (IH (tr ++ card_events se tr c)%list) as (segs & Hc & Hall).
    exists (card_events se tr c :: segs). cbn [cards_events concat].
    rewrite Hc. split; [reflexivity|]. constructor; [|exact Hall].
    unfold card_segment. destruct (card_error c) as [e|] eqn:He.
    + apply card_events_error, He.
    + rewrite (card_events_no_error _ _ _ He).
      destruct (card_write c) as [[id product]|]; [|reflexivity].
      destruct (se tr) as [e|]; eauto.
Qed.

Section Extractor.
Variable server_time : list event -> nat.
Variable store_error : list event -> option exn.

(** One card either raises (its price is not a number, or the store
    refuses its write), or writes its record and counts for one, or
    leaves the state alone and counts for nothing. *)
Lemma try_card_spec c st :
  try_card server_time store_error c st =
  match card_error c with
  | Some e => inl e
  | None =>
      match card_write c with
      | Some (id, product) =>
          match store_error (trace st) with
          | Some e => inl e
          | None =>
              inr ({| db := Firestore.set_merge (server_time (trace st))
                              "retailer_products" id product (db st);
                      trace := trace st ++ [SetMerge id product] |}, 1%nat)
          end
      | None => inr (st, 0%nat)
      end
  end.
Proof.
  unfold try_card, card_error, card_write.
  destruct (parse_price (price_tag c)) as [e|price]; [reflexivity|].
  destruct (name_tag c) as [n|]; [|reflexivity].
  destruct (absolutize (link_tag c)) as [pu|]; [|reflexivity].
  destruct (absolutize (img_src c)) as [iu|]; [|reflexivity].
  destruct price as [x|]; [|reflexivity].
  destruct (PyStr.nonempty n) eqn:Hn; cbn [andb]; [|reflexivity].
  destruct (PyStr.nonempty pu && PyStr.nonempty iu); [|reflexivity].
  unfold save_product_to_firestore. rewrite make_product_url.
  destruct (store_error (trace st)); reflexivity.
Qed.

(** The loop, one card further. *)
Lemma scrape_cards_step c rest st k :
  exists st1,
    scrape_cards server_time store_error (c :: rest) st k =
      scrape_cards server_time store_error rest st1
        (k + length (writes (card_events store_error (trace st) c))) /\
    trace st1 = (trace st ++ card_events store_error (trace st) c)%list.
Proof.
  cbn [scrape_cards]. rewrite try_card_spec.
  destruct (card_error c) as [e|] eqn:He.
  - rewrite (card_events_error _ _ _ _ He). eexists.
    split; [rewrite Nat.add_0_r; reflexivity | reflexivity].
  - rewrite (card_events_no_error _ _ _ He).
    destruct (card_write c) as [[id product]|].
    + destruct (store_error (trace st)) as [e|]; eexists.
      * split; [rewrite Nat.add_0_r; reflexivity | reflexivity].
      * split; reflexivity.
    + exists st. split; [reflexivity | rewrite app_nil_r; reflexivity].
Qed.

Lemma scrape_cards_spec cards st k :
  trace (fst (scrape_cards server_time store_error cards st k)) =
    (trace st ++ cards_events store_error (trace st) cards)%list /\
  snd (scrape_cards server_time store_error cards st k) =
    (k + length (writes (cards_events store_error (trace st) cards)))%nat.
Proof.
  revert st k. induction cards as [|c rest IH]; intros st k.
  - cbn. rewrite app_nil_r. split; [reflexivity | lia].
  - destruct (scrape_cards_step c rest st k) as (st1 & -> & Ht1).
    destruct (IH st1 (k + length (writes (card_events store_error (trace st) c)))%nat)
      as [Ht Hk].
    rewrite Ht, Hk, Ht1. cbn [cards_events].
    unfold writes. rewrite omap_app, length_app, <- app_assoc.
    split; [reflexivity | lia].
Qed.

End Extractor.

(** Projections of the events of a page's cards. *)
Lemma writes_card_events_accepted cards :
  writes (flat_map card_events_accepted cards) = omap card_write cards.
Proof.
  induction cards as [|c rest IH]; [reflexivity|].
  cbn [flat_map]. unfold writes in *. rewrite omap_app, IH, omap_cons.
  destruct (card_error c) as [e|] eqn:He.
  - rewrite (card_events_accepted_error _ _ He), (card_error_no_write _ _ He).
    reflexivity.
  - rewrite (card_events_accepted_no_error _ He).
    destruct (card_write c) as [[id product]|]; reflexivity.
Qed.

Lemma parse_errors_card_events_accepted cards :
  parse_errors (flat_map card_events_accepted cards) = omap card_error cards.
Proof.
  induction cards as [|c rest IH]; [reflexivity|].
  cbn [flat_map]. unfold parse_errors in *. rewrite omap_app, IH, omap_cons.
  destruct (card_error c) as [e|] eqn:He.
  - rewrite (card_events_accepted_error _ _ He). reflexivity.
  - rewrite (card_events_accepted_no_error _ He).
    destruct (card_write c) as [[id product]|]; reflexivity.
Qed.

Lemma gets_card_events se tr c : gets (card_events se tr c) = [].
Proof.
  unfold card_events.
  destruct (parse_price (price_tag c)); [reflexivity|].
  destruct (card_write c) as [[id product]|]; [|reflexivity].
  destruct (se tr); reflexivity.
Qed.

Lemma page_yields_card_events se tr c : page_yields (card_events se tr c) = [].
Proof.
  unfold card_events.
  destruct (parse_price (price_tag c)); [reflexivity|].
  destruct (card_write c) as [[id product]|]; [|reflexivity].
  destruct (se tr); reflexivity.
Qed.

Lemma gets_cards_events se tr cards : gets (cards_events se tr cards) = [].
Proof.
  revert tr. induction cards as [|c rest IH]; intros tr; [reflexivity|].
  cbn [cards_events]. unfold gets in *. rewrite omap_app, IH, app_nil_r.
  apply gets_card_events.
Qed.

Lemma page_yields_cards_events se tr cards :
  page_yields (cards_events se tr cards) = [].
Proof.
  revert tr. induction cards as [|c rest IH]; intros tr; [reflexivity|].
  cbn [cards_events]. unfold page_yields in *. rewrite omap_app, IH, app_nil_r.
  apply page_yields_card_events.
Qed.

Section Page.
Variable web : list event -> string -> option (list card).
Variable server_time : list event -> nat.
Variable store_error : list event -> option exn.

Lemma scrape_page_spec url page_number st :
  trace (fst (scrape_page web server_time store_error url page_number st)) =
    (trace st ++ page_events_at web store_error url page_number st)%list /\
  snd (scrape_page web server_time store_error url page_number st) =
    page_yield_at web store_error url page_number st.
Proof.
  unfold scrape_page, page_events_at, page_yield_at, response_at, page_events,
    page_yield.
  cbn [emit trace].
  destruct (web _ _) as [cards|].
  - match goal with |- context [scrape_cards _ _ cards ?s ?n] =>
      destruct (scrape_cards_spec server_time store_error cards s n) as [Ht Hk];
      destruct (scrape_cards server_time store_error cards s n) as [st3 found] end.
    cbn [fst snd emit trace] in *. subst found. rewrite Ht.
    rewrite <- !app_assoc. cbn [app]. split; reflexivity.
  - cbn [fst snd emit trace]. split; [|reflexivity].
    rewrite <- !app_assoc. reflexivity.
Qed.

End Page.

(** ** Crawl loop *)

Lemma writes_app a b : writes (a ++ b) = (writes a ++ writes b)%list.
Proof. apply omap_app. Qed.

Lemma gets_app a b : gets (a ++ b) = (gets a ++ gets b)%list.
Proof. apply omap_app. Qed.

Lemma page_yields_app a b : page_yields (a ++ b) = (page_yields a ++ page_yields b)%list.
Proof. apply omap_app. Qed.

Lemma parse_errors_app a b :
  parse_errors (a ++ b) = (parse_errors a ++ parse_errors b)%list.
Proof. apply omap_app. Qed.

Lemma gets_page_events web se url page st :
  gets (page_events_at web se url page st) = [page_url_of url page].
Proof.
  unfold page_events_at, page_events. rewrite gets_app.
  destruct (response_at web url page st) as [cards|]; [|reflexivity].
  rewrite gets_app, gets_cards_events. reflexivity.
Qed.

Lemma page_yields_page_events web se url page st :
  page_yields (page_events_at web se url page st) = [page_yield_at web se url page st].
Proof.
  unfold page_events_at, page_yield_at, page_events, page_yield.
  rewrite page_yields_app.
  destruct (response_at web url page st) as [cards|]; [|reflexivity].
  rewrite page_yields_app, page_yields_cards_events. reflexivity.
Qed.

Lemma writes_page_events web se url page st :
  writes (page_events_at web se url page st) =
  match response_at web url page st with
  | Some cards =>
      writes (cards_events se
                (trace st ++ [PrintScraping (page_url_of url page);
                              Get (page_url_of url page)]) cards)
  | None => []
  end.
Proof.
  unfold page_events_at, page_events. rewrite writes_app.
  destruct (response_at web url page st) as [cards|]; [|reflexivity].
  rewrite writes_app. cbn. apply app_nil_r.
Qed.

Lemma parse_errors_page_events web se url page st :
  parse_errors (page_events_at web se url page st) =
  match response_at web url page st with
  | Some cards =>
      parse_errors (cards_events se
                      (trace st ++ [PrintScraping (page_url_of url page);
                                    Get (page_url_of url page)]) cards)
  | None => []
  end.
Proof.
  unfold page_events_at, page_events. rewrite parse_errors_app.
  destruct (response_at web url page st) as [cards|]; [|reflexivity].
  rewrite parse_errors_app. cbn. apply app_nil_r.
Qed.

Lemma length_writes_page_events web se url page st :
  length (writes (page_events_at web se url page st)) = page_yield_at web se url page st.
Proof.
  rewrite writes_page_events. unfold page_yield_at, page_yield.
  destruct (response_at web url page st); reflexivity.
Qed.

Section Loop.
Variable web : list event -> string -> option (list card).
Variable server_time : list event -> nat.
Variable store_error : list event -> option exn.

Lemma crawl_pages_continue url page rest st total :
  page_yield_at web store_error url page st <> 0%nat ->
  crawl_pages web server_time store_error url (page :: rest) st total =
  crawl_pages web server_time store_error url rest
    (emit (Sleep 2) (fst (scrape_page web server_time store_error url page st)))
    (total + page_yield_at web store_error url page st).
Proof.
  intros Hpos. cbn [crawl_pages].
  destruct (scrape_page_spec web server_time store_error url page st) as [_ Hn].
  destruct (scrape_page web server_time store_error url page st) as [st1 n].
  cbn [fst snd] in *. subst n.
  destruct (Nat.eqb_spec (page_yield_at web store_error url page st) 0);
    [contradiction | reflexivity].
Qed.

Lemma crawl_pages_break url page rest st total :
  page_yield_at web store_error url page st = 0%nat ->
  crawl_pages web server_time store_error url (page :: rest) st total =
  (emit (PrintNoMore page url) (fst (scrape_page web server_time store_error url page st)),
   total).
Proof.
  intros Hzero. cbn [crawl_pages].
  destruct (scrape_page_spec web server_time store_error url page st) as [_ Hn].
  destruct (scrape_page web server_time store_error url page st) as [st1 n].
  cbn [fst snd] in *. subst n. rewrite Hzero. reflexivity.
Qed.

(** The shape of a subcategory's visit over the page numbers [pages]:
    the pages actually fetched are a prefix of [pages]; every page but
    the last fetched had a positive yield; the visit ends on the first
    zero yield or when [pages] is used up. *)
Lemma crawl_pages_spec url pages st total :
  exists new ys pos,
    trace (fst (crawl_pages web server_time store_error url pages st total)) =
      (trace st ++ new)%list /\
    gets new = map (page_url_of url) (firstn (length ys) pages) /\
    page_yields new = ys /\
    Forall (fun n => 0 < n)%nat pos /\
    (ys = (pos ++ [0%nat])%list \/ (ys = pos /\ length pos = length pages)) /\
    length ys <= length pages /\
    length (writes new) = sum_list ys /\
    snd (crawl_pages web server_time store_error url pages st total) = (total + sum_list ys)%nat.
Proof.
  revert st total. induction pages as [|page rest IH]; intros st total.
  - exists [], [], []. cbn. rewrite app_nil_r. repeat split; auto.
  - destruct (scrape_page_spec web server_time store_error url page st) as [Ht _].
    destruct (Nat.eq_dec (page_yield_at web store_error url page st) 0) as [Hz|Hnz].
    + rewrite (crawl_pages_break _ _ _ _ _ Hz). cbn [fst snd emit trace].
      rewrite Ht, <- app_assoc.
      eexists _, [0%nat], []. split; [reflexivity|].
      rewrite gets_app, page_yields_app, writes_app, length_app,
        gets_page_events, page_yields_page_events,
        length_writes_page_events, Hz.
      cbn. repeat split; auto; lia.
    + rewrite (crawl_pages_continue _ _ _ _ _ Hnz).
      match goal with |- context [crawl_pages _ _ _ url rest ?s ?n] =>
        destruct (IH s n) as (new & ys & pos & Hnew & Hg & Hy & Hpos & Hshape & Hlen & Hw & Hsum)
      end.
      rewrite Hnew, Hsum. cbn [emit trace]. rewrite Ht, <- !app_assoc.
      eexists _, (page_yield_at web store_error url page st :: ys),
        (page_yield_at web store_error url page st :: pos).
      split; [reflexivity|].
      rewrite !gets_app, !page_yields_app, !writes_app, !length_app,
        gets_page_events, page_yields_page_events, length_writes_page_events.
      change (gets [Sleep 2]) with (@nil string).
      change (page_yields [Sleep 2]) with (@nil nat).
      change (writes [Sleep 2]) with (@nil (string * pydict)).
      cbn [app length firstn map sum_list sum_list_with].
      rewrite Hg, Hy, Hw.
      repeat split; try reflexivity; try lia.
      * constructor; [lia | assumption].
      * destruct Hshape as [-> | [-> Hl]]; [left; reflexivity | right].
        split; [reflexivity | cbn; lia].
      * unfold id. lia.
Qed.

End Loop.

Section Controller.
Variable web : list event -> string -> option (list card).
Variable server_time : list event -> nat.
Variable store_error : list event -> option exn.

Lemma crawl_subcategory_spec url st total :
  exists seg,
    trace (fst (crawl_subcategory web server_time store_error url st total)) =
      (trace st ++ seg)%list /\
    section_visit url seg /\
    length (writes seg) = sum_list (page_yields seg) /\
    snd (crawl_subcategory web server_time store_error url st total) =
      (total + sum_list (page_yields seg))%nat.
Proof.
  unfold crawl_subcategory.
  destruct (crawl_pages_spec web server_time store_error url (seq 1 7)
              (emit (PrintSubcategory url) st) total)
    as (new & ys & pos & Hnew & Hg & Hy & Hpos & Hshape & Hlen & Hw & Hsum).
  rewrite length_seq in Hlen.
  exists (PrintSubcategory url :: new).
  rewrite Hnew, Hsum. cbn [emit trace]. rewrite <- app_assoc.
  change (page_yields (PrintSubcategory url :: new)) with (page_yields new).
  change (writes (PrintSubcategory url :: new)) with (writes new).
  change (gets (PrintSubcategory url :: new)) with (gets new).
  rewrite Hy. split; [reflexivity|]. split; [|split; [assumption | reflexivity]].
  exists ys, pos.
  change (page_yields (PrintSubcategory url :: new)) with (page_yields new).
  change (gets (PrintSubcategory url :: new)) with (gets new).
  rewrite Hg. change firstn with (@take nat). rewrite take_seq, Nat.min_l by assumption.
  split; [reflexivity|]. split; [assumption|].
  split; [|split; [assumption|]].
  - destruct Hshape as [-> | [-> Hl]].
    + rewrite length_app in *. cbn in *. lia.
    + rewrite length_seq in Hl. lia.
  - destruct Hshape as [-> | [-> Hl]]; [left; reflexivity|].
    right. rewrite length_seq in Hl. auto.
Qed.

Lemma crawl_subcategories_spec urls st total :
  exists segs,
    trace (fst (crawl_subcategories web server_time store_error urls st total)) =
      (trace st ++ concat segs)%list /\
    Forall2 section_visit urls segs.
Proof.
  revert st total. induction urls as [|url rest IH]; intros st total.
  - exists []. cbn. rewrite app_nil_r. split; [reflexivity | constructor].
  - cbn [crawl_subcategories].
    destruct (crawl_subcategory_spec url st total) as (seg & Ht & Hvisit & _ & _).
    destruct (crawl_subcategory web server_time store_error url st total) as [st' total'].
    cbn [fst] in Ht.
    destruct (IH st' total') as (segs & Hts & Hall).
    exists (seg :: segs). rewrite Hts, Ht. cbn [concat].
    rewrite <- app_assoc. split; [reflexivity | constructor; assumption].
Qed.

(** C2. In a run of [main] every configured subcategory, in the order of
    the list, has its pages fetched once each in increasing order from
    page 1; no page follows a page whose yield was zero (a failed fetch
    counts as zero), and no page beyond 7 is fetched. *)
Theorem main_visits_sections_in_page_order (st : state) :
  exists segs total,
    trace (fst (main web server_time store_error st)) =
      (trace st ++ concat segs ++ [PrintFinished total])%list /\
    Forall2 section_visit SUBCATEGORY_URLS segs.
Proof.
  unfold main.
  destruct (crawl_subcategories_spec SUBCATEGORY_URLS st 0) as (segs & Ht & Hall).
  destruct (crawl_subcategories web server_time store_error SUBCATEGORY_URLS st 0)
    as [st' total].
  cbn [fst] in Ht. exists segs, total. cbn [fst emit trace].
  rewrite Ht, <- app_assoc. split; [reflexivity | assumption].
Qed.

End Controller.

Lemma well_formed_all_written cards :
  Forall (fun c => well_formed c = true) cards ->
  length (omap card_write cards) = length cards.
Proof.
  induction 1 as [|c rest Hc _ IH]; [reflexivity|].
  rewrite omap_cons. apply card_write_well_formed in Hc. destruct Hc as [w ->].
  cbn. rewrite IH. reflexivity.
Qed.

Lemma well_formed_none_written cards :
  Forall (fun c => well_formed c = false) cards -> omap card_write cards = [].
Proof.
  induction 1 as [|c l Hc _ IH]; [reflexivity|].
  rewrite omap_cons, IH. destruct (card_write c) eqn:Hw; [|reflexivity].
  assert (Hs : is_Some (card_write c)) by (rewrite Hw; eauto).
  apply card_write_well_formed in Hs. congruence.
Qed.

(** The writes of a page's cards are writes of cards of the page, in
    page order. *)
Lemma writes_cards_events_sublist se tr cards :
  writes (cards_events se tr cards) `sublist_of` omap card_write cards.
Proof.
  revert tr. induction cards as [|c rest IH]; intros tr; [constructor|].
  cbn [cards_events]. rewrite writes_app, omap_cons.
  unfold card_events. destruct (parse_price (price_tag c)) as [e|pr] eqn:Hp.
  - destruct (card_write c); [apply sublist_cons|]; apply IH.
  - destruct (card_write c) as [[id product]|]; [|apply IH].
    destruct (se tr); [apply sublist_cons | apply sublist_skip]; apply IH.
Qed.

(** The record written for a card, field by field. *)
Lemma card_write_fields c id product :
  card_write c = Some (id, product) ->
  exists n x iu pu,
    name_tag c = Some n /\
    absolutize (link_tag c) = Some pu /\
    absolutize (img_src c) = Some iu /\
    parse_price (price_tag c) = inr (Some x) /\
    PyStr.nonempty n = true /\ PyStr.nonempty pu = true /\
    PyStr.nonempty iu = true /\
    id = doc_id pu /\
    product = make_product n x iu pu (map_category n) "".
Proof.
  unfold card_write.
  destruct (name_tag c) as [n|]; [|discriminate].
  destruct (absolutize (link_tag c)) as [pu|]; [|discriminate].
  destruct (absolutize (img_src c)) as [iu|]; [|discriminate].
  destruct (parse_price (price_tag c)) as [e|[x|]]; try discriminate.
  destruct (PyStr.nonempty n) eqn:Hn; [|discriminate].
  destruct (PyStr.nonempty pu) eqn:Hpu; [|discriminate].
  destruct (PyStr.nonempty iu) eqn:Hiu; [|discriminate].
  cbn. intros [= <- <-]. exists n, x, iu, pu. repeat split; auto.
Qed.

(** ** The store over a run *)

Lemma written_keys_app a b :
  written_keys (a ++ b) = written_keys a ∪ written_keys b.
Proof.
  unfold written_keys. rewrite map_app. apply list_to_set_app_L.
Qed.

Lemma written_keys_In (w : string * pydict) ws :
  In w ws -> ("retailer_products", fst w) ∈ written_keys ws.
Proof.
  intros Hin. unfold written_keys. apply elem_of_list_to_set, list_elem_of_In.
  apply (in_map (fun w => ("retailer_products", fst w))), Hin.
Qed.

Lemma written_keys_elem key ws :
  key ∈ written_keys ws -> exists w, In w ws /\ key = ("retailer_products", fst w).
Proof.
  unfold written_keys. rewrite elem_of_list_to_set, list_elem_of_In, in_map_iff.
  intros (w & <- & Hin). eauto.
Qed.

Lemma run_effect_refl st : run_effect st st.
Proof.
  exists []. rewrite app_nil_r. split; [reflexivity|]. split; [|split].
  - cbn. set_solver.
  - reflexivity.
  - intros w [].
Qed.

Lemma run_effect_trans st1 st2 st3 :
  run_effect st1 st2 -> run_effect st2 st3 -> run_effect st1 st3.
Proof.
  intros (n1 & T1 & D1 & F1 & S1) (n2 & T2 & D2 & F2 & S2).
  exists (n1 ++ n2)%list. rewrite writes_app, written_keys_app.
  split; [rewrite T2, T1, app_assoc; reflexivity|]. split; [|split].
  - rewrite D2, D1. set_solver.
  - intros key Hkey. rewrite F2, F1; [reflexivity | set_solver | set_solver].
  - intros w Hin. apply in_app_or in Hin. destruct Hin as [Hin|Hin]; [|auto].
    destruct (decide (("retailer_products", fst w) ∈ written_keys (writes n2)))
      as [Hk|Hk].
    + apply written_keys_elem in Hk. destruct Hk as (w2 & Hin2 & Heq).
      injection Heq as Heq. rewrite Heq. auto.
    + destruct (S1 w Hin) as (doc & pu & t & Hd & Hrest).
      exists doc, pu, t. rewrite F2 by exact Hk. auto.
Qed.

Lemma run_effect_emit e st : writes [e] = [] -> run_effect st (emit e st).
Proof.
  intros He. exists [e]. rewrite He. split; [reflexivity|]. split; [|split].
  - cbn. set_solver.
  - reflexivity.
  - intros w [].
Qed.

(** What a stretch of the run did, read off the events it added. *)
Lemma run_effect_new st st' new :
  run_effect st st' -> trace st' = (trace st ++ new)%list ->
  dom (db st') = dom (db st) ∪ written_keys (writes new) /\
  (forall key, key ∉ written_keys (writes new) -> db st' !! key = db st !! key) /\
  (forall w, In w (writes new) -> stored_under_identity (fst w) (db st')).
Proof.
  intros (new' & Ht & Hd & Hf & Hs) Hnew.
  rewrite Ht in Hnew. apply app_inv_head in Hnew. subst new'. auto.
Qed.

Section StoreOverRun.
Import Firestore FirestoreFacts.
Variable web : list event -> string -> option (list card).
Variable server_time : list event -> nat.
Variable store_error : list event -> option exn.

Lemma run_effect_write c id product st :
  card_write c = Some (id, product) ->
  run_effect st
    {| db := set_merge (server_time (trace st)) "retailer_products" id product (db st);
       trace := trace st ++ [SetMerge id product] |}.
Proof.
  intros Hw. exists [SetMerge id product].
  change (writes [SetMerge id product]) with [(id, product)].
  cbn [db trace]. split; [reflexivity|]. split; [|split].
  - rewrite set_merge_dom. unfold written_keys. cbn. set_solver.
  - intros key Hkey. apply set_merge_lookup_ne.
    unfold written_keys in Hkey. cbn in Hkey. set_solver.
  - intros w [<-|[]]. cbn [fst].
    apply card_write_fields in Hw.
    destruct Hw as (n & x & iu & pu & _ & _ & _ & _ & _ & _ & _ & -> & ->).
    eexists _, pu, (server_time (trace st)).
    split; [apply set_merge_lookup|]. split; [|split; [reflexivity|]].
    + rewrite merge_doc_lookup, lookup_fmap, make_product_url. cbn.
      destruct (default ∅ (db st !! ("retailer_products", doc_id pu)) !! "productUrl");
        reflexivity.
    + rewrite merge_doc_lookup, lookup_fmap, make_product_scrapedAt. cbn.
      destruct (default ∅ (db st !! ("retailer_products", doc_id pu)) !! "scrapedAt");
        reflexivity.
Qed.

Lemma run_effect_cards cards st k :
  run_effect st (fst (scrape_cards server_time store_error cards st k)).
Proof.
  revert st k. induction cards as [|c rest IH]; intros st k; cbn [scrape_cards].
  - apply run_effect_refl.
  - rewrite try_card_spec. destruct (card_error c) as [e|].
    + eapply run_effect_trans; [|apply IH]. apply run_effect_emit. reflexivity.
    + destruct (card_write c) as [[id product]|] eqn:Hw; [|apply IH].
      destruct (store_error (trace st)) as [e|].
      * eapply run_effect_trans; [|apply IH]. apply run_effect_emit. reflexivity.
      * eapply run_effect_trans; [|apply IH]. apply (run_effect_write c), Hw.
Qed.

Lemma run_effect_page url page st :
  run_effect st (fst (scrape_page web server_time store_error url page st)).
Proof.
  unfold scrape_page.
  set (st2 := emit (Get _) (emit (PrintScraping _) st)).
  assert (H2 : run_effect st st2).
  { eapply run_effect_trans; apply run_effect_emit; reflexivity. }
  destruct (web _ _) as [cards|].
  - pose proof (run_effect_cards cards st2 0) as Hc.
    destruct (scrape_cards server_time store_error cards st2 0) as [st3 n].
    cbn [fst] in *.
    eapply run_effect_trans; [exact H2|].
    eapply run_effect_trans; [exact Hc|]. apply run_effect_emit. reflexivity.
  - cbn [fst]. eapply run_effect_trans; [exact H2|].
    apply run_effect_emit. reflexivity.
Qed.

Lemma run_effect_pages url pages st total :
  run_effect st (fst (crawl_pages web server_time store_error url pages st total)).
Proof.
  revert st total. induction pages as [|page rest IH]; intros st total.
  - apply run_effect_refl.
  - destruct (Nat.eq_dec (page_yield_at web store_error url page st) 0) as [Hz|Hnz].
    + rewrite (crawl_pages_break _ _ _ _ _ _ _ _ Hz). cbn [fst].
      eapply run_effect_trans; [apply run_effect_page|].
      apply run_effect_emit. reflexivity.
    + rewrite (crawl_pages_continue _ _ _ _ _ _ _ _ Hnz).
      eapply run_effect_trans; [apply run_effect_page|].
      eapply run_effect_trans; [|apply IH]. apply run_effect_emit. reflexivity.
Qed.

Lemma run_effect_subcategory url st total :
  run_effect st (fst (crawl_subcategory web server_time store_error url st total)).
Proof.
  unfold crawl_subcategory.
  apply (run_effect_trans _ (emit (PrintSubcategory url) st));
    [apply run_effect_emit; reflexivity | apply run_effect_pages].
Qed.

Lemma run_effect_subcategories urls st total :
  run_effect st (fst (crawl_subcategories web server_time store_error urls st total)).
Proof.
  revert st total. induction urls as [|url rest IH]; intros st total.
  - apply run_effect_refl.
  - cbn [crawl_subcategories].
    pose proof (run_effect_subcategory url st total) as Hsec.
    destruct (crawl_subcategory web server_time store_error url st total)
      as [st' total'].
    cbn [fst] in Hsec.
    eapply run_effect_trans; [exact Hsec | apply IH].
Qed.

Lemma run_effect_main st :
  run_effect st (fst (main web server_time store_error st)).
Proof.
  unfold main.
  pose proof (run_effect_subcategories SUBCATEGORY_URLS st 0) as Hrun.
  destruct (crawl_subcategories web server_time store_error SUBCATEGORY_URLS st 0)
    as [st' total].
  cbn [fst] in *.
  eapply run_effect_trans; [exact Hrun | apply run_effect_emit; reflexivity].
Qed.

End StoreOverRun.

Section EndToEnd.
Variable web : list event -> string -> option (list card).
Variable server_time : list event -> nat.
Variable store_error : list event -> option exn.

(** With a store that applies every write, a page whose cards are all
    well formed is counted in full and the visit moves on to the next
    page. *)
Lemma crawl_pages_full_page url page rest st total cards n :
  (forall h, store_error h = None) ->
  response_at web url page st = Some cards ->
  Forall (fun c => well_formed c = true) cards ->
  length cards = S n ->
  exists st1 seg,
    crawl_pages web server_time store_error url (page :: rest) st total =
      crawl_pages web server_time store_error url rest st1 (total + S n) /\
    trace st1 = (trace st ++ seg)%list /\
    gets seg = [page_url_of url page] /\
    page_yields seg = [S n] /\
    length (writes seg) = S n.
Proof.
  intros Hacc Hresp Hwf Hlen.
  assert (Hy : page_yield_at web store_error url page st = S n).
  { unfold page_yield_at, page_yield. rewrite Hresp.
    rewrite (cards_events_accepting _ _ _ Hacc), writes_card_events_accepted.
    rewrite well_formed_all_written by assumption. exact Hlen. }
  destruct (scrape_page_spec web server_time store_error url page st) as [Ht _].
  eexists _, _. split; [|split; [|split; [|split]]].
  - rewrite crawl_pages_continue by (rewrite Hy; discriminate).
    rewrite Hy. reflexivity.
  - cbn [emit trace]. rewrite Ht, <- app_assoc. reflexivity.
  - rewrite gets_app, gets_page_events. reflexivity.
  - rewrite page_yields_app, page_yields_page_events, Hy. reflexivity.
  - rewrite writes_app, length_app, length_writes_page_events, Hy. cbn. lia.
Qed.

(** A page without cards ends the visit. *)
Lemma crawl_pages_empty_page url page rest st total :
  response_at web url page st = Some [] ->
  exists st1 seg,
    crawl_pages web server_time store_error url (page :: rest) st total = (st1, total) /\
    trace st1 = (trace st ++ seg)%list /\
    gets seg = [page_url_of url page] /\
    page_yields seg = [0%nat] /\
    length (writes seg) = 0%nat.
Proof.
  intros Hresp.
  assert (Hy : page_yield_at web store_error url page st = 0%nat).
  { unfold page_yield_at, page_yield. rewrite Hresp. reflexivity. }
  destruct (scrape_page_spec web server_time store_error url page st) as [Ht _].
  eexists _, _. split; [|split; [|split; [|split]]].
  - rewrite crawl_pages_break by exact Hy. reflexivity.
  - cbn [emit trace]. rewrite Ht, <- app_assoc. reflexivity.
  - rewrite gets_app, gets_page_events. reflexivity.
  - rewrite page_yields_app, page_yields_page_events, Hy. reflexivity.
  - rewrite writes_app, length_app, length_writes_page_events, Hy. reflexivity.
Qed.

(** C6 (as amended). With a store that applies every write, a
    subcategory with ten well-formed cards on each of its pages 1 to 3
    and no card on page 4 is visited with exactly four fetches, in page
    order; thirty records are written, each of them stored under its
    identity, and no other document changes; the running total grows by
    thirty; and the loop goes on with the next configured subcategory. *)
Theorem three_full_pages_then_an_empty_one (url : string) (rest : list string)
    (st : state) (total : nat) :
  (forall h, store_error h = None) ->
  (forall h page, In page [1; 2; 3]%nat ->
     exists cards, web h (page_url_of url page) = Some cards /\
                   length cards = 10%nat /\
                   Forall (fun c => well_formed c = true) cards) ->
  (forall h, web h (page_url_of url 4) = Some []) ->
  exists st' seg,
    crawl_subcategory web server_time store_error url st total =
      (st', (total + 30)%nat) /\
    trace st' = (trace st ++ seg)%list /\
    gets seg = map (page_url_of url) [1; 2; 3; 4]%nat /\
    page_yields seg = [10; 10; 10; 0]%nat /\
    length (writes seg) = 30%nat /\
    dom (db st') = dom (db st) ∪ written_keys (writes seg) /\
    (forall w, In w (writes seg) -> stored_under_identity (fst w) (db st')) /\
    (forall key, key ∉ written_keys (writes seg) -> db st' !! key = db st !! key) /\
    crawl_subcategories web server_time store_error (url :: rest) st total =
      crawl_subcategories web server_time store_error rest st' (total + 30)%nat.
Proof.
  intros Hacc Hfull Hempty.
  assert (Hrun : exists st' seg,
    crawl_subcategory web server_time store_error url st total =
      (st', (total + 30)%nat) /\
    trace st' = (trace st ++ seg)%list /\
    gets seg = map (page_url_of url) [1; 2; 3; 4]%nat /\
    page_yields seg = [10; 10; 10; 0]%nat /\
    length (writes seg) = 30%nat).
  { unfold crawl_subcategory. cbn [seq].
    set (st0 := emit (PrintSubcategory url) st).
    destruct (Hfull (trace st0 ++ [PrintScraping (page_url_of url 1)])%list 1%nat)
      as (c1 & R1 & L1 & W1); [cbn; auto|].
    destruct (crawl_pages_full_page url 1 [2; 3; 4; 5; 6; 7]%nat st0 total c1 9
                Hacc R1 W1 L1)
      as (st1 & s1 & E1 & T1 & G1 & Y1 & N1).
    destruct (Hfull (trace st1 ++ [PrintScraping (page_url_of url 2)])%list 2%nat)
      as (c2 & R2 & L2 & W2); [cbn; auto|].
    destruct (crawl_pages_full_page url 2 [3; 4; 5; 6; 7]%nat st1 (total + 10) c2 9
                Hacc R2 W2 L2)
      as (st2 & s2 & E2 & T2 & G2 & Y2 & N2).
    destruct (Hfull (trace st2 ++ [PrintScraping (page_url_of url 3)])%list 3%nat)
      as (c3 & R3 & L3 & W3); [cbn; auto|].
    destruct (crawl_pages_full_page url 3 [4; 5; 6; 7]%nat st2 (total + 10 + 10) c3 9
                Hacc R3 W3 L3)
      as (st3 & s3 & E3 & T3 & G3 & Y3 & N3).
    destruct (crawl_pages_empty_page url 4 [5; 6; 7]%nat st3 (total + 10 + 10 + 10)
                (Hempty _))
      as (st4 & s4 & E4 & T4 & G4 & Y4 & N4).
    exists st4, (PrintSubcategory url :: s1 ++ s2 ++ s3 ++ s4)%list.
    split; [|split; [|split; [|split]]].
    - rewrite E1, E2, E3, E4. f_equal. lia.
    - rewrite T4, T3, T2, T1. subst st0. cbn [emit trace].
      rewrite <- !app_assoc. reflexivity.
    - change (gets (PrintSubcategory url :: s1 ++ s2 ++ s3 ++ s4))
        with (gets (s1 ++ s2 ++ s3 ++ s4)).
      rewrite !gets_app, G1, G2, G3, G4. reflexivity.
    - change (page_yields (PrintSubcategory url :: s1 ++ s2 ++ s3 ++ s4))
        with (page_yields (s1 ++ s2 ++ s3 ++ s4)).
      rewrite !page_yields_app, Y1, Y2, Y3, Y4. reflexivity.
    - change (writes (PrintSubcategory url :: s1 ++ s2 ++ s3 ++ s4))
        with (writes (s1 ++ s2 ++ s3 ++ s4)).
      rewrite !writes_app, !length_app, N1, N2, N3, N4. reflexivity. }
  destruct Hrun as (st' & seg & Hrun & Ht & Hg & Hy & Hw).
  pose proof (run_effect_subcategory web server_time store_error url st total) as Heff.
  rewrite Hrun in Heff. cbn [fst] in Heff.
  destruct (run_effect_new _ _ _ Heff Ht) as (Hdom & Hframe & Hstored).
  exists st', seg. repeat (split; [assumption|]).
  cbn [crawl_subcategories]. rewrite Hrun. reflexivity.
Qed.

End EndToEnd.

Lemma three_full_pages_then_an_empty_one_witness :
  exists st' seg,
    crawl_subcategory sample_web sample_clock accepting_store sample_section
      initial_state 0 = (st', (0 + 30)%nat) /\
    trace st' = (trace initial_state ++ seg)%list /\
    gets seg = map (page_url_of sample_section) [1; 2; 3; 4]%nat /\
    page_yields seg = [10; 10; 10; 0]%nat /\
    length (writes seg) = 30%nat /\
    dom (db st') = dom (db initial_state) ∪ written_keys (writes seg) /\
    (forall w, In w (writes seg) -> stored_under_identity (fst w) (db st')) /\
    (forall key, key ∉ written_keys (writes seg) ->
                 db st' !! key = db initial_state !! key) /\
    crawl_subcategories sample_web sample_clock accepting_store
      (sample_section :: []) initial_state 0 =
      crawl_subcategories sample_web sample_clock accepting_store [] st' (0 + 30)%nat.
Proof.
  apply (three_full_pages_then_an_empty_one sample_web sample_clock accepting_store
           sample_section [] initial_state 0).
  - intros h. reflexivity.
  - intros h page Hin. exists ten_cards. split; [|split].
    + destruct Hin as [<-|[<-|[<-|[]]]]; reflexivity.
    + reflexivity.
    + repeat constructor.
  - intros h. reflexivity.
Defined.

(** ** Claims on the page extractor *)

Lemma map_category_label name : In (map_category name) category_labels.
Proof.
  rewrite map_category_cascade.
  repeat match goal with
         | |- context [if ?b then _ else _] => destruct b
         end; cbn; auto 10.
Qed.


Lemma no_card_errors cards :
  Forall (fun c => well_formed c = true) cards -> omap card_error cards = [].
Proof.
  induction 1 as [|c l Hc _ IH]; [reflexivity|].
  rewrite omap_cons, IH.
  apply card_write_well_formed in Hc. destruct Hc as [w Hw].
  rewrite (card_write_no_error _ _ Hw). reflexivity.
Qed.

Section ExtractorClaims.
Variable web : list event -> string -> option (list card).
Variable server_time : list event -> nat.
Variable store_error : list event -> option exn.


(** C5 (as amended). Extracting a page never raises, and each card is
    handled on its own: the part of the page's trace between the fetch
    and the closing count is made of one segment per card, in page
    order.  A card whose price text [float] rejects is logged; a card
    that merely lacks an element is skipped without any log entry; a
    well-formed card is written, or, when the store raises on its write,
    logged.  The yield is the number of records written, and each of
    them is stored under its identity.  When the store applies every
    write, the records written are those of all the well-formed cards
    and the only log entries are those of the rejected price texts: on a
    page of five cards of which one has no price and the other four are
    well formed, four records are written and stored, the yield is four
    and no failure is logged. *)
Theorem page_extraction_isolates_cards (url : string) (page_number : nat)
    (st : state) (cards : list card) :
  response_at web url page_number st = Some cards ->
  exists body segs,
    trace (fst (scrape_page web server_time store_error url page_number st)) =
      (trace st ++
       [PrintScraping (page_url_of url page_number); Get (page_url_of url page_number)] ++
       body ++
       [PrintFound (snd (scrape_page web server_time store_error url page_number st))
          (page_url_of url page_number)])%list /\
    body = concat segs /\
    Forall2 card_segment cards segs /\
    snd (scrape_page web server_time store_error url page_number st) =
      length (writes body) /\
    dom (db (fst (scrape_page web server_time store_error url page_number st))) =
      dom (db st) ∪ written_keys (writes body) /\
    (forall w, In w (writes body) ->
       stored_under_identity (fst w)
         (db (fst (scrape_page web server_time store_error url page_number st)))) /\
    ((forall h, store_error h = None) ->
       writes body = omap card_write cards /\
       parse_errors body = omap card_error cards /\
       forall pre c post,
         cards = (pre ++ c :: post)%list -> length cards = 5%nat ->
         price_tag c = None ->
         Forall (fun c' => well_formed c' = true) (pre ++ post) ->
         length (writes body) = 4%nat /\ parse_errors body = []).
Proof.
  intros Hresp.
  destruct (scrape_page_spec web server_time store_error url page_number st) as [Ht Hn].
  pose proof (run_effect_page web server_time store_error url page_number st) as Heff.
  destruct (run_effect_new _ _ _ Heff Ht) as (Hdom & _ & Hstored).
  rewrite writes_page_events, Hresp in Hdom, Hstored.
  unfold page_yield_at, page_yield in Hn. rewrite Hresp in Hn.
  unfold page_events_at, page_events in Ht. rewrite Hresp in Ht.
  set (u := page_url_of url page_number) in *.
  set (body := cards_events store_error (trace st ++ [PrintScraping u; Get u]) cards) in *.
  destruct (cards_events_segments store_error (trace st ++ [PrintScraping u; Get u])
              cards) as (segs & Hsegs & Hall).
  exists body, segs.
  split; [rewrite Ht, Hn; reflexivity|].
  split; [exact Hsegs|]. split; [exact Hall|]. split; [exact Hn|].
  split; [exact Hdom|]. split; [exact Hstored|].
  intros Hacc. subst body.
  rewrite (cards_events_accepting _ _ _ Hacc), writes_card_events_accepted,
    parse_errors_card_events_accepted.
  split; [reflexivity|]. split; [reflexivity|].
  intros pre c post -> Hlen Hprice Hwf.
  apply Forall_app in Hwf. destruct Hwf as [Hpre Hpost].
  assert (Hc_write : card_write c = None).
  { unfold card_write, parse_price. rewrite Hprice.
    destruct (name_tag c), (absolutize (link_tag c)), (absolutize (img_src c));
      reflexivity. }
  assert (Hc_error : card_error c = None).
  { unfold card_error, parse_price. rewrite Hprice. reflexivity. }
  rewrite !omap_app, !omap_cons, Hc_write, Hc_error, !length_app,
    !well_formed_all_written, (no_card_errors pre), (no_card_errors post)
    by assumption.
  rewrite length_app in Hlen. cbn in Hlen. split; [lia | reflexivity].
Qed.

End ExtractorClaims.

(** ** Every write of a run comes from a card *)

Lemma omap_card_write_from_cards cards : Forall from_card (omap card_write cards).
Proof.
  induction cards as [|c rest IH]; [constructor|].
  rewrite omap_cons. destruct (card_write c) as [w|] eqn:Hw; [|exact IH].
  constructor; [exists c; exact Hw | exact IH].
Qed.

Lemma page_events_from_cards web se url page st :
  Forall from_card (writes (page_events_at web se url page st)).
Proof.
  rewrite writes_page_events.
  destruct (response_at web url page st) as [cards|]; [|constructor].
  eapply Forall_forall. intros w Hin.
  pose proof (omap_card_write_from_cards cards) as Hall.
  rewrite Forall_forall in Hall. apply Hall.
  eapply elem_of_sublist; [exact Hin | apply writes_cards_events_sublist].
Qed.

Section RunInvariant.
Variable web : list event -> string -> option (list card).
Variable server_time : list event -> nat.
Variable store_error : list event -> option exn.

Lemma scrape_page_from_cards url page st :
  Forall from_card (writes (trace st)) ->
  Forall from_card (writes (trace (fst (scrape_page web server_time store_error url page st)))).
Proof.
  intros Hst. destruct (scrape_page_spec web server_time store_error url page st) as [-> _].
  rewrite writes_app. apply Forall_app. split; [exact Hst|].
  apply page_events_from_cards.
Qed.

Lemma emit_from_cards e st :
  writes [e] = [] ->
  Forall from_card (writes (trace st)) ->
  Forall from_card (writes (trace (emit e st))).
Proof.
  intros He Hst. cbn [emit trace]. rewrite writes_app, He, app_nil_r. exact Hst.
Qed.

Lemma crawl_pages_from_cards url pages st total :
  Forall from_card (writes (trace st)) ->
  Forall from_card (writes (trace (fst (crawl_pages web server_time store_error url pages st total)))).
Proof.
  revert st total. induction pages as [|page rest IH]; intros st total Hst.
  - exact Hst.
  - destruct (Nat.eq_dec (page_yield_at web store_error url page st) 0) as [Hz|Hnz].
    + rewrite (crawl_pages_break _ _ _ _ _ _ _ _ Hz). cbn [fst].
      apply emit_from_cards; [reflexivity|]. apply scrape_page_from_cards, Hst.
    + rewrite (crawl_pages_continue _ _ _ _ _ _ _ _ Hnz). apply IH.
      apply emit_from_cards; [reflexivity|]. apply scrape_page_from_cards, Hst.
Qed.

Lemma crawl_subcategories_from_cards urls st total :
  Forall from_card (writes (trace st)) ->
  Forall from_card
    (writes (trace (fst (crawl_subcategories web server_time store_error urls st total)))).
Proof.
  revert st total. induction urls as [|url rest IH]; intros st total Hst.
  - exact Hst.
  - cbn [crawl_subcategories].
    pose proof (crawl_pages_from_cards url (seq 1 7)
                  (emit (PrintSubcategory url) st) total) as Hsec.
    fold (crawl_subcategory web server_time store_error url st total) in Hsec.
    destruct (crawl_subcategory web server_time store_error url st total) as [st' total'].
    apply IH, Hsec. apply emit_from_cards; [reflexivity | exact Hst].
Qed.

Lemma main_from_cards (db0 : Firestore.store) :
  Forall from_card
    (writes (trace (fst (main web server_time store_error {| db := db0; trace := [] |})))).
Proof.
  unfold main.
  pose proof (crawl_subcategories_from_cards SUBCATEGORY_URLS
                {| db := db0; trace := [] |} 0) as Hrun.
  destruct (crawl_subcategories web server_time store_error SUBCATEGORY_URLS _ 0) as [st' total].
  cbn [fst] in *. apply emit_from_cards; [reflexivity|]. apply Hrun. constructor.
Qed.

End RunInvariant.

(** ** Claims on the records of a run *)

Lemma make_product_dom n x iu pu cat col :
  dom (make_product n x iu pu cat col) = PRODUCT_KEYS.
Proof.
  unfold make_product, PRODUCT_KEYS. rewrite !dom_insert_L, dom_empty_L.
  cbn [list_to_set foldr]. reflexivity.
Qed.

Section RecordClaims.
Variable web : list event -> string -> option (list card).
Variable server_time : list event -> nat.
Variable store_error : list event -> option exn.

(** C9 (as amended). The extractor tests for the four characters [http],
    not for a scheme: a non-empty link or image source that does not
    start with [http] is prefixed with the site's origin, and any other
    one is left as it is.  Every record a run persists therefore has a
    [productUrl] and an [imageUrl] that start with [http]. *)
Theorem urls_prefixed_unless_http (db0 : Firestore.store) :
  (forall s,
     absolutize (Some s) =
     Some (if PyStr.nonempty s && negb (PyStr.startswith "http" s)
           then BASE_URL ++ s else s)) /\
  absolutize None = None /\
  Forall (fun w : string * pydict =>
            exists pu iu,
              snd w !! "productUrl" = Some (Leaf (Str pu)) /\
              snd w !! "imageUrl" = Some (Leaf (Str iu)) /\
              PyStr.startswith "http" pu = true /\
              PyStr.startswith "http" iu = true)
    (writes (trace (fst (main web server_time store_error {| db := db0; trace := [] |})))).
Proof.
  split; [|split].
  - intros s. cbn. destruct (PyStr.nonempty s && negb (PyStr.startswith "http" s));
      reflexivity.
  - reflexivity.
  - eapply Forall_impl; [apply main_from_cards|].
    intros [id product] [c Hc].
    apply card_write_fields in Hc.
    destruct Hc as (n & x & iu & pu & _ & Hpu & Hiu & _ & _ & Npu & Niu & _ & ->).
    exists pu, iu. cbn [snd].
    repeat split; try reflexivity; eauto using absolutize_http.
Qed.

(** C10. Every record a run persists has the nine fields of a product
    and no other; its brand is ['Country Road'], its retailer is
    [{id: 'countryroad', name: 'Country Road'}], its colour is the empty
    string, and its category is one of the five labels of the table. *)
Theorem persisted_records_have_fixed_fields (db0 : Firestore.store) :
  Forall (fun w : string * pydict =>
            dom (snd w) = PRODUCT_KEYS /\
            snd w !! "brand" = Some (Leaf (Str "Country Road")) /\
            snd w !! "retailer" =
              Some (Dict (<["id" := Str "countryroad"]>
                         (<["name" := Str "Country Road"]> ∅))) /\
            snd w !! "color" = Some (Leaf (Str "")) /\
            exists category,
              snd w !! "category" = Some (Leaf (Str category)) /\
              In category ["tops"; "bottoms"; "shoes"; "outerwear"; "accessories"])
    (writes (trace (fst (main web server_time store_error {| db := db0; trace := [] |})))).
Proof.
  eapply Forall_impl; [apply main_from_cards|].
  intros [id product] [c Hc].
  apply card_write_fields in Hc.
  destruct Hc as (n & x & iu & pu & _ & _ & _ & _ & _ & _ & _ & _ & ->).
  cbn [snd]. split; [apply make_product_dom|].
  repeat (split; [reflexivity|]).
  exists (map_category n). split; [reflexivity|].
  apply (map_category_label n).
Qed.

End RecordClaims.

(** ** The claims as first stated, on concrete inputs *)


(** C5, counterexample.  On a page of five cards of which one has no
    price element, four records are written and nothing is logged for
    the fifth: the trace is the two fetch events, four writes and the
    closing count. *)
Lemma missing_price_is_not_logged :
  snd (scrape_page (one_page_web five_cards_one_without_price) sample_clock
         accepting_store sample_section 1 initial_state) = 4%nat /\
  length (writes (trace (fst (scrape_page (one_page_web five_cards_one_without_price)
                                sample_clock accepting_store sample_section 1
                                initial_state)))) = 4%nat /\
  length (parse_errors (trace (fst (scrape_page (one_page_web five_cards_one_without_price)
                                      sample_clock accepting_store sample_section 1
                                      initial_state)))) <> 1%nat /\
  length (trace (fst (scrape_page (one_page_web five_cards_one_without_price)
                        sample_clock accepting_store sample_section 1
                        initial_state))) = 7%nat.
Proof. vm_compute. repeat split; try reflexivity. discriminate. Qed.

(** C6, counterexample.  On the site whose sample subcategory has three
    pages of ten well-formed cards and an empty fourth page, a store
    that refuses every write makes the first page yield nothing: one
    page is fetched, no record is persisted and the total stays at
    zero. *)
Lemma refused_writes_end_the_visit :
  snd (crawl_subcategory sample_web sample_clock refusing_store sample_section
         initial_state 0) = 0%nat /\
  gets (trace (fst (crawl_subcategory sample_web sample_clock refusing_store
                      sample_section initial_state 0))) = [sample_section] /\
  writes (trace (fst (crawl_subcategory sample_web sample_clock refusing_store
                        sample_section initial_state 0))) = [] /\
  db (fst (crawl_subcategory sample_web sample_clock refusing_store
             sample_section initial_state 0)) = ∅.
Proof. vm_compute. repeat split; reflexivity. Qed.

(** C9, counterexample.  A link with a scheme other than [http...] is
    prefixed, and a relative link that happens to begin with [http] is
    not; the record of the latter is written with a relative URL. *)
Lemma scheme_is_not_what_is_tested :
  has_scheme "ftp://files.example.com/a.jpg" = true /\
  absolutize (Some "ftp://files.example.com/a.jpg") <>
    Some "ftp://files.example.com/a.jpg" /\
  has_scheme "httpdocs/item.html" = false /\
  absolutize (Some "httpdocs/item.html") = Some "httpdocs/item.html" /\
  exists product,
    card_write {| name_tag := Some "Linen Shirt";
                  link_tag := Some "httpdocs/item.html";
                  img_tag := Some (Some "/img/linen-shirt.jpg");
                  price_tag := Some "$129.00" |}
      = Some (doc_id "httpdocs/item.html", product) /\
    product !! "productUrl" = Some (Leaf (Str "httpdocs/item.html")).
Proof.
  split; [reflexivity|]. split; [vm_compute; discriminate|].
  split; [reflexivity|]. split; [reflexivity|].
  eexists. split; vm_compute; reflexivity.
Qed.

Lemma page_extraction_isolates_cards_witness :
  exists body,
    trace (fst (scrape_page (one_page_web five_cards_one_without_price) sample_clock
                  accepting_store sample_section 1 initial_state)) =
      (trace initial_state ++
       [PrintScraping (page_url_of sample_section 1);
        Get (page_url_of sample_section 1)] ++
       body ++
       [PrintFound
          (snd (scrape_page (one_page_web five_cards_one_without_price) sample_clock
                  accepting_store sample_section 1 initial_state))
          (page_url_of sample_section 1)])%list /\
    length (writes body) = 4%nat /\
    parse_errors body = [] /\
    (forall w, In w (writes body) ->
       stored_under_identity (fst w)
         (db (fst (scrape_page (one_page_web five_cards_one_without_price)
                     sample_clock accepting_store sample_section 1 initial_state)))).
Proof.
  destruct (page_extraction_isolates_cards
              (one_page_web five_cards_one_without_price) sample_clock
              accepting_store sample_section 1 initial_state
              five_cards_one_without_price eq_refl)
    as (body & segs & Ht & _ & _ & _ & _ & Hstored & Hacc).
  destruct (Hacc (fun h => eq_refl)) as (_ & _ & Hfive).
  destruct (Hfive [sample_card "a"; sample_card "b"] card_without_price
                  [sample_card "d"; sample_card "e"]) as [Hfour Hquiet].
  - reflexivity.
  - reflexivity.
  - reflexivity.
  - repeat constructor.
  - exists body. auto.
Defined.

(** A price text that is not a number is logged once, and the four
    other cards of the page are written all the same. *)
Example bad_price_is_logged_once :
  snd (scrape_page (one_page_web five_cards_one_with_bad_price) sample_clock
         accepting_store sample_section 1 initial_state) = 4%nat /\
  parse_errors (trace (fst (scrape_page (one_page_web five_cards_one_with_bad_price)
                              sample_clock accepting_store sample_section 1
                              initial_state)))
    = [ValueError].
Proof. vm_compute. split; reflexivity. Qed.

(** A store that gives way after two writes: the third and fourth cards
    are logged and not counted, the first two stay written. *)
Example store_failing_midway :
  snd (scrape_page (one_page_web five_cards_one_without_price) sample_clock
         (fun h => if (length (writes h) <? 2)%nat then None
                   else Some GoogleAPICallError)
         sample_section 1 initial_state) = 2%nat /\
  parse_errors (trace (fst (scrape_page (one_page_web five_cards_one_without_price)
                              sample_clock
                              (fun h => if (length (writes h) <? 2)%nat then None
                                        else Some GoogleAPICallError)
                              sample_section 1 initial_state)))
    = [GoogleAPICallError; GoogleAPICallError].
Proof. vm_compute. split; reflexivity. Qed.

(** Writing an empty [retailer] replaces the stored one: its [id] is
    gone, as with the client's update mask. *)
Example empty_nested_field_replaces :
  match save_product_to_firestore None 2
          (<["productUrl" := Leaf (Str sample_url)]> (<["retailer" := Dict ∅]> ∅))
          stored_after_first with
  | inr db' =>
      match db' !! ("retailer_products", doc_id sample_url) with
      | Some doc =>
          Firestore.nested doc "retailer" "id" = None /\
          doc !! "name" = Some (Leaf (Str "Oxford Shirt"))
      | None => False
      end
  | inl _ => False
  end.
Proof. vm_compute. split; reflexivity. Qed.

(** Two sample URLs have different identities. *)
Example distinct_urls_distinct_ids :
  doc_id "https://www.countryroad.co.nz/p/linen-shirt-a" <>
  doc_id "https://www.countryroad.co.nz/p/linen-shirt-b".
Proof. vm_compute. discriminate. Qed.

(** The test suite of RFC 1321, appendix A.5. *)
Example md5_test_suite :
  MD5.hexdigest "" = "d41d8cd98f00b204e9800998ecf8427e" /\
  MD5.hexdigest "a" = "0cc175b9c0f1b6a831c399e269772661" /\
  MD5.hexdigest "abc" = "900150983cd24fb0d6963f7d28e17f72" /\
  MD5.hexdigest "message digest" = "f96b697d7cb7938d525a2f31aaf161d0" /\
  MD5.hexdigest "abcdefghijklmnopqrstuvwxyz" = "c3fcd3d76192e4007dfb496cca67e13b" /\
  MD5.hexdigest "12345678901234567890123456789012345678901234567890123456789012345678901234567890"
    = "57edf4a22be3c955ac49da2e2107b67a".
Proof. vm_compute. repeat split; reflexivity. Qed.

(** What [float] makes of some price texts. *)
Example float_samples :
  parse_price (Some "NZD $1,299.00") = inr (Some (Finite false 129900 (-2))) /\
  parse_price (Some "$-5.00") = inr (Some (Finite true 500 (-2))) /\
  parse_price (Some "Sold out") = inl ValueError /\
  parse_price (Some "$") = inl ValueError /\
  parse_price (Some "") = inr None /\
  parse_price None = inr None.
Proof. vm_compute. repeat split; reflexivity. Qed.

(** * Further properties of the script *)

(** ** Strings *)

Lemma append_inj_l (a x y : string) : a ++ x = a ++ y -> x = y.
Proof. induction a as [|c a IH]; cbn; [auto | intros [= H]; auto]. Qed.

Lemma string_length_app (a b : string) :
  String.length (a ++ b) = (String.length a + String.length b)%nat.
Proof.
  induction a as [|c a IH]; [reflexivity|].
  change (S (String.length (a ++ b)) = S (String.length a + String.length b)).
  rewrite IH. reflexivity.
Qed.

Lemma append_ne_self (a x : string) : PyStr.nonempty x = true -> a <> a ++ x.
Proof.
  intros Hx Heq. apply (f_equal String.length) in Heq.
  rewrite string_length_app in Heq. destruct x; [discriminate | cbn in Heq; lia].
Qed.

Lemma str_of_nat_inj n m : str_of_nat n = str_of_nat m -> n = m.
Proof.
  unfold str_of_nat. intros H.
  apply (f_equal NilEmpty.uint_of_string) in H.
  rewrite !NilEmpty.usu in H. injection H as H.
  apply DecimalNat.Unsigned.to_uint_inj, H.
Qed.

Lemma page_url_of_inj url p q : page_url_of url p = page_url_of url q -> p = q.
Proof.
  unfold page_url_of.
  destruct (Nat.eqb_spec p 1) as [->|Hp], (Nat.eqb_spec q 1) as [->|Hq]; intros H.
  - reflexivity.
  - exfalso. revert H. apply append_ne_self. reflexivity.
  - exfalso. symmetry in H. revert H. apply append_ne_self. reflexivity.
  - apply append_inj_l in H. apply (append_inj_l "?src=i&page=") in H.
    apply str_of_nat_inj, H.
Qed.

(** X1. Page addressing is one-to-one: two page numbers of one
    subcategory have the same URL only when they are the same number. *)
Theorem page_urls_are_distinct (url : string) (p q : nat) :
  page_url_of url p = page_url_of url q <-> p = q.
Proof. split; [apply page_url_of_inj | intros ->; reflexivity]. Qed.

(** ** URL rewriting *)

Lemma startswith_base s : PyStr.startswith "http" (BASE_URL ++ s) = true.
Proof. reflexivity. Qed.

(** X2. Rewriting a link leaves [None] and the empty string as they
    are, never makes an empty result out of a non-empty link, and is
    idempotent: a rewritten URL is never prefixed a second time. *)
Theorem absolutize_idempotent (u : option string) :
  absolutize None = None /\
  absolutize (Some "") = Some "" /\
  (forall s, absolutize u = Some s -> exists s0, u = Some s0 /\
             PyStr.nonempty s = PyStr.nonempty s0) /\
  absolutize (absolutize u) = absolutize u.
Proof.
  split; [reflexivity|]. split; [reflexivity|]. split.
  - intros s Hs. destruct u as [s0|]; [|discriminate]. exists s0.
    split; [reflexivity|].
    pose proof (absolutize_nonempty (Some s0)) as Hne. rewrite Hs in Hne. exact Hne.
  - destruct u as [s|]; [|reflexivity]. cbn [absolutize].
    destruct (PyStr.nonempty s) eqn:Hs; cbn [andb].
    + destruct (PyStr.startswith "http" s) eqn:Hp; cbn [negb].
      * cbn [absolutize]. rewrite Hs, Hp. reflexivity.
      * cbn [absolutize]. rewrite startswith_base, andb_false_r. reflexivity.
    + cbn [absolutize]. rewrite Hs. reflexivity.
Qed.

(** ** Substrings *)

Lemma string_app_assoc (a b c : string) : (a ++ b) ++ c = a ++ (b ++ c).
Proof.
  induction a as [|x a IH]; [reflexivity|].
  change (String x ((a ++ b) ++ c) = String x (a ++ (b ++ c))).
  rewrite IH. reflexivity.
Qed.

Lemma startswith_app kw s :
  PyStr.startswith kw s = true <-> exists post, s = kw ++ post.
Proof.
  unfold PyStr.startswith. revert s.
  induction kw as [|k kw IH]; intros s.
  - split; [intros _; exists s; reflexivity | intros _; destruct s; reflexivity].
  - destruct s as [|c s]; [split; [discriminate | intros [post [=]]]|].
    cbn [String.prefix].
    destruct (Ascii.ascii_dec k c) as [->|Hne].
    + rewrite IH. split; intros [post Hp]; exists post.
      * rewrite Hp. reflexivity.
      * injection Hp as Hp. exact Hp.
    + split; [discriminate | intros [post [= Hk _]]; congruence].
Qed.

Lemma contains_app kw s :
  PyStr.contains kw s = true <-> exists pre post, s = pre ++ kw ++ post.
Proof.
  induction s as [|c s IH]; cbn [PyStr.contains].
  - rewrite orb_false_r, startswith_app. split.
    + intros [post Hp]. exists "", post. exact Hp.
    + intros (pre & post & Hp). destruct pre; [exists post; exact Hp | discriminate].
  - rewrite orb_true_iff, startswith_app, IH. split.
    + intros [[post Hp] | (pre & post & Hp)].
      * exists "", post. exact Hp.
      * exists (String c pre), post. rewrite Hp. reflexivity.
    + intros (pre & post & Hp). destruct pre as [|x pre].
      * left. exists post. exact Hp.
      * right. injection Hp as _ Hp. exists pre, post. exact Hp.
Qed.

(** A text that contains a word contains every part of the word. *)
Lemma contains_part a k b s :
  PyStr.contains (a ++ k ++ b) s = true -> PyStr.contains k s = true.
Proof.
  rewrite !contains_app. intros (pre & post & ->).
  exists (pre ++ a), (b ++ post).
  rewrite !string_app_assoc. reflexivity.
Qed.

(** ** More on the classifier *)

Lemma shirt_is_a_top name :
  PyStr.contains "shirt" (PyStr.lower name) = true -> has_keyword_of "tops" name = true.
Proof. intros H. unfold has_keyword_of. cbn. rewrite H. reflexivity. Qed.

(** X3. The keyword [overshirt] of outerwear never decides: a name that
    contains it contains [shirt] and is classified as tops. *)
Theorem overshirt_is_classified_as_tops (name : string) :
  PyStr.contains "overshirt" (PyStr.lower name) = true ->
  map_category name = "tops".
Proof.
  intros H. apply (contains_part "over" "shirt" "") in H.
  rewrite map_category_cascade, (shirt_is_a_top _ H). reflexivity.
Qed.

Lemma overshirt_is_classified_as_tops_witness :
  map_category "Cotton Twill Overshirt" = "tops".
Proof.
  apply (overshirt_is_classified_as_tops "Cotton Twill Overshirt").
  vm_compute. reflexivity.
Defined.

(** X4. A name that contains [duffle] is never classified as
    accessories, although the keyword is listed there: outerwear, which
    lists it too, comes first. *)
Theorem duffle_is_never_an_accessory (name : string) :
  PyStr.contains "duffle" (PyStr.lower name) = true ->
  In (map_category name) ["tops"; "bottoms"; "shoes"; "outerwear"].
Proof.
  intros H.
  assert (Hout : has_keyword_of "outerwear" name = true).
  { unfold has_keyword_of. cbn. rewrite H, !orb_true_r. reflexivity. }
  rewrite map_category_cascade, Hout.
  destruct (has_keyword_of "tops" name), (has_keyword_of "bottoms" name),
    (has_keyword_of "shoes" name); cbn; auto.
Qed.

Lemma duffle_is_never_an_accessory_witness :
  In (map_category "Leather Duffle Bag") ["tops"; "bottoms"; "shoes"; "outerwear"].
Proof.
  apply (duffle_is_never_an_accessory "Leather Duffle Bag").
  vm_compute. reflexivity.
Defined.

Lemma map_category_with_table name :
  map_category_with CATEGORY_KEYWORDS name = map_category name.
Proof. reflexivity. Qed.

(** X5. Four keywords of the table are dead: without [t-shirt], [pants],
    [overshirt] and the [duffle] of accessories every name is classified
    as with them. *)
Theorem dead_keywords (name : string) :
  map_category_with PRUNED_KEYWORDS name = map_category name.
Proof.
  unfold map_category, map_category_with, CATEGORY_KEYWORDS, PRUNED_KEYWORDS.
  cbn [scan_categories]. rewrite !scan_keywords_existsb. cbn [existsb].
  set (s := PyStr.lower name).
  assert (Ht : PyStr.contains "t-shirt" s = true -> PyStr.contains "shirt" s = true)
    by apply (contains_part "t-" "shirt" "").
  assert (Hp : PyStr.contains "pants" s = true -> PyStr.contains "pant" s = true)
    by apply (contains_part "" "pant" "s").
  assert (Ho : PyStr.contains "overshirt" s = true -> PyStr.contains "shirt" s = true)
    by apply (contains_part "over" "shirt" "").
  destruct (PyStr.contains "shirt" s) eqn:Eshirt.
  { reflexivity. }
  destruct (PyStr.contains "t-shirt" s); [discriminate (Ht eq_refl)|].
  destruct (PyStr.contains "overshirt" s); [discriminate (Ho eq_refl)|].
  destruct (PyStr.contains "pant" s) eqn:Epant.
  { cbn [orb]. reflexivity. }
  destruct (PyStr.contains "pants" s); [discriminate (Hp eq_refl)|].
  cbn [orb].
  repeat match goal with
         | |- context [PyStr.contains ?k s] =>
             destruct (PyStr.contains k s); cbn [orb]; try reflexivity
         end.
Qed.

(** ** Price cleaning *)

Lemma contains_char c a s :
  PyStr.contains (String c "") (String a s) =
  Ascii.eqb c a || PyStr.contains (String c "") s.
Proof.
  cbn [PyStr.contains]. f_equal. unfold PyStr.startswith. cbn [String.prefix].
  destruct (Ascii.ascii_dec c a) as [->|Hne].
  - rewrite Ascii.eqb_refl. destruct s; reflexivity.
  - symmetry. apply Ascii.eqb_neq, Hne.
Qed.

Lemma startswith_char c a s :
  PyStr.startswith (String c "") (String a s) = Ascii.eqb c a.
Proof.
  unfold PyStr.startswith. cbn [String.prefix].
  destruct (Ascii.ascii_dec c a) as [->|Hne].
  - rewrite Ascii.eqb_refl. destruct s; reflexivity.
  - symmetry. apply Ascii.eqb_neq, Hne.
Qed.

(** Deleting a character leaves none of it. *)
Lemma replace_char_gone c s :
  PyStr.contains (String c "") (PyStr.replace (String c "") "" s) = false.
Proof.
  unfold PyStr.replace. induction s as [|a s IH]; [reflexivity|].
  cbn [PyStr.replace_from]. rewrite startswith_char.
  destruct (Ascii.eqb c a) eqn:E.
  - exact IH.
  - rewrite contains_char, E. exact IH.
Qed.

(** Deleting occurrences of a word brings in no character that was not
    there. *)
Lemma replace_from_keeps_absent c old k s :
  PyStr.contains (String c "") s = false ->
  PyStr.contains (String c "") (PyStr.replace_from old "" k s) = false.
Proof.
  revert k. induction s as [|a s IH]; intros k H; [reflexivity|].
  rewrite contains_char in H. apply orb_false_iff in H. destruct H as [Ha Hs].
  cbn [PyStr.replace_from]. destruct k as [|k]; [|apply IH, Hs].
  destruct (PyStr.startswith old (String a s)).
  - apply IH, Hs.
  - rewrite contains_char, Ha. apply IH, Hs.
Qed.

Lemma lstrip_keeps_absent c s :
  PyStr.contains (String c "") s = false ->
  PyStr.contains (String c "") (PyStr.lstrip s) = false.
Proof.
  induction s as [|a s IH]; intros H; [reflexivity|].
  cbn [PyStr.lstrip]. destruct (PyStr.is_space a); [|exact H].
  rewrite contains_char in H. apply orb_false_iff in H. apply IH, H.
Qed.

Lemma rstrip_keeps_absent c s :
  PyStr.contains (String c "") s = false ->
  PyStr.contains (String c "") (PyStr.rstrip s) = false.
Proof.
  induction s as [|a s IH]; intros H; [reflexivity|].
  rewrite contains_char in H. apply orb_false_iff in H. destruct H as [Ha Hs].
  specialize (IH Hs). cbn [PyStr.rstrip].
  destruct (PyStr.rstrip s) as [|b r].
  - destruct (PyStr.is_space a); [reflexivity|].
    rewrite contains_char, Ha. reflexivity.
  - rewrite contains_char, Ha. exact IH.
Qed.

(** X6. The text handed to [float] never holds a dollar sign or a comma,
    whatever the price text was. *)
Theorem clean_price_has_no_dollar_or_comma (price_text : string) :
  PyStr.contains "$" (clean_price price_text) = false /\
  PyStr.contains "," (clean_price price_text) = false.
Proof.
  unfold clean_price, PyStr.strip. split.
  - apply rstrip_keeps_absent, lstrip_keeps_absent.
    apply replace_from_keeps_absent, replace_char_gone.
  - apply rstrip_keeps_absent, lstrip_keeps_absent, replace_char_gone.
Qed.

(** The currency code is deleted before the dollar sign, so a code that
    only forms once the sign is gone stays in the text. *)
Example currency_code_can_survive :
  clean_price "NZ$D 20" = "NZD 20" /\ parse_price (Some "NZ$D 20") = inl ValueError.
Proof. vm_compute. split; reflexivity. Qed.

(** ** Document identities *)

Lemma hex_length bs : String.length (MD5.hex bs) = (2 * length bs)%nat.
Proof.
  induction bs as [|b bs IH]; [reflexivity|].
  cbn [MD5.hex String.length length]. rewrite IH. lia.
Qed.

Lemma le_bytes_length k n : length (MD5.le_bytes k n) = k.
Proof.
  revert n. induction k as [|k IH]; intros n; [reflexivity|].
  cbn [MD5.le_bytes length]. rewrite IH. reflexivity.
Qed.

Lemma le_bytes_range k n :
  Forall (fun b => 0 <= b < 256)%Z (MD5.le_bytes k n).
Proof.
  revert n. induction k as [|k IH]; intros n; [constructor|].
  cbn [MD5.le_bytes]. constructor; [|apply IH].
  change 255%Z with (Z.ones 8). rewrite Z.land_ones by lia.
  apply Z.mod_pos_bound. reflexivity.
Qed.

Lemma hex_digit_is_hex n : (0 <= n < 16)%Z -> is_hex_char (MD5.hex_digit n) = true.
Proof.
  intros H. rewrite <- (Z2Nat.id n) by lia.
  assert (Hm : (Z.to_nat n < 16)%nat) by lia.
  revert Hm. generalize (Z.to_nat n) as m. intros m Hm.
  do 16 (destruct m as [|m]; [reflexivity|]). lia.
Qed.

Lemma hex_is_hex bs :
  Forall (fun b => 0 <= b < 256)%Z bs -> all_chars is_hex_char (MD5.hex bs) = true.
Proof.
  induction 1 as [|b bs Hb _ IH]; [reflexivity|].
  cbn [MD5.hex all_chars]. rewrite IH, !hex_digit_is_hex; [reflexivity| |].
  - change 15%Z with (Z.ones 4). rewrite Z.land_ones by lia.
    apply Z.mod_pos_bound. reflexivity.
  - rewrite Z.shiftr_div_pow2 by lia. change (2 ^ 4)%Z with 16%Z.
    split; [apply Z.div_pos; lia | apply Z.div_lt_upper_bound; lia].
Qed.

(** X7. The identity of a product is always a string of 32 lower-case
    hexadecimal digits, whatever the URL (the empty one included). *)
Theorem doc_id_is_32_hex_digits (product_url : string) :
  String.length (doc_id product_url) = 32%nat /\
  all_chars is_hex_char (doc_id product_url) = true.
Proof.
  unfold doc_id, MD5.hexdigest, MD5.digest.
  destruct (fold_left MD5.compress _ MD5.init) as [[[a b] c] d].
  split.
  - rewrite hex_length, !length_app, !le_bytes_length. reflexivity.
  - apply hex_is_hex. rewrite !Forall_app. auto using le_bytes_range.
Qed.

(** ** The store over a run *)

Section StoreClaims.
Variable web : list event -> string -> option (list card).
Variable server_time : list event -> nat.
Variable store_error : list event -> option exn.

(** X8. A run never deletes a document and never touches a collection
    other than [retailer_products]: the store's keys grow by exactly the
    identities written, and every document that was not written to is
    the one that was there. *)
Theorem run_only_adds_written_documents (st : state) :
  exists new,
    trace (fst (main web server_time store_error st)) = (trace st ++ new)%list /\
    dom (db (fst (main web server_time store_error st))) =
      dom (db st) ∪ written_keys (writes new) /\
    (forall key, key ∉ written_keys (writes new) ->
       db (fst (main web server_time store_error st)) !! key = db st !! key) /\
    (forall c id, c <> "retailer_products" ->
       db (fst (main web server_time store_error st)) !! (c, id) = db st !! (c, id)).
Proof.
  destruct (run_effect_main web server_time store_error st) as (new & Ht & Hd & Hf & _).
  exists new. repeat (split; [assumption|]).
  intros c id Hc. apply Hf. intros Hin.
  apply written_keys_elem in Hin. destruct Hin as (w & _ & [= Heq _]).
  contradiction.
Qed.

(** X9. After a run, every identity written during it holds a document
    whose own [productUrl] hashes to that identity and whose [scrapedAt]
    is a server time (the sentinel is never stored), however many times
    and in whatever order the identity was written. *)
Theorem written_documents_match_their_identity (st : state) :
  exists new,
    trace (fst (main web server_time store_error st)) = (trace st ++ new)%list /\
    forall id product,
      In (SetMerge id product) new ->
      stored_under_identity id (db (fst (main web server_time store_error st))).
Proof.
  destruct (run_effect_main web server_time store_error st) as (new & Ht & _ & _ & Hs).
  exists new. split; [assumption|].
  intros id product Hin. apply (Hs (id, product)).
  unfold writes. apply list_elem_of_In, list_elem_of_omap.
  exists (SetMerge id product). split; [apply list_elem_of_In, Hin | reflexivity].
Qed.

End StoreClaims.

(** ** Counts over a run *)

Lemma paced_app a b : paced a -> paced b -> paced (a ++ b).
Proof.
  intros Ha Hb. induction Ha; cbn [app]; [exact Hb | | | | ];
    constructor; assumption.
Qed.

Lemma paced_quiet_all l tr : Forall quiet l -> paced tr -> paced (l ++ tr).
Proof.
  intros Hl Htr. induction Hl as [|e l He _ IH]; [exact Htr|].
  cbn [app]. apply paced_quiet; assumption.
Qed.

Lemma card_events_quiet se tr c : Forall quiet (card_events se tr c).
Proof.
  unfold card_events.
  destruct (parse_price (price_tag c)); [repeat constructor|].
  destruct (card_write c) as [[id product]|]; [|constructor].
  destruct (se tr); repeat constructor.
Qed.

Lemma cards_events_quiet se tr cards : Forall quiet (cards_events se tr cards).
Proof.
  revert tr. induction cards as [|c rest IH]; intros tr; [constructor|].
  cbn [cards_events]. apply Forall_app. split; [apply card_events_quiet | apply IH].
Qed.

(** A page's events, with what the loop emits right after them. *)
Lemma paced_page web se url page st next :
  next = (if (page_yield_at web se url page st =? 0)%nat
          then PrintNoMore page url else Sleep 2) ->
  paced (page_events_at web se url page st ++ [next]).
Proof.
  intros ->. unfold page_events_at, page_yield_at, page_events, page_yield.
  destruct (response_at web url page st) as [cards|].
  - rewrite <- !app_assoc.
    apply (paced_quiet_all [_; _]); [repeat constructor|].
    apply paced_quiet_all; [apply cards_events_quiet|].
    cbn [app]. destruct (length (writes _)) as [|n]; cbn [Nat.eqb].
    + apply paced_empty, paced_nil.
    + apply paced_productive; [lia | apply paced_nil].
  - cbn. repeat (apply paced_quiet; [exact I|]). apply paced_failed, paced_nil.
Qed.

(** What [paced] says of the place of each closing line and each pause. *)
Lemma paced_after_productive tr :
  paced tr ->
  forall pre post n u,
    tr = (pre ++ PrintFound n u :: post)%list -> (0 < n)%nat ->
    exists post', post = Sleep 2 :: post'.
Proof.
  induction 1 as [|n0 u0 tr0 Hn0 Htr IH|u0 p0 url0 tr0 Htr IH
                  |u0 p0 url0 tr0 Htr IH|e tr0 He Htr IH];
    intros pre post n u Heq Hn.
  - destruct pre; discriminate.
  - destruct pre as [|a [|b pre]]; cbn in Heq.
    + injection Heq as _ _ <-. eauto.
    + discriminate.
    + injection Heq as _ _ Heq. eapply IH; eauto.
  - destruct pre as [|a [|b pre]]; cbn in Heq.
    + injection Heq as <- _ _. lia.
    + discriminate.
    + injection Heq as _ _ Heq. eapply IH; eauto.
  - destruct pre as [|a [|b pre]]; cbn in Heq.
    + discriminate.
    + discriminate.
    + injection Heq as _ _ Heq. eapply IH; eauto.
  - destruct pre as [|a pre]; cbn in Heq.
    + injection Heq as -> _. contradiction.
    + injection Heq as _ Heq. eapply IH; eauto.
Qed.

Lemma paced_before_pause tr :
  paced tr ->
  forall pre post s,
    tr = (pre ++ Sleep s :: post)%list ->
    s = 2%nat /\ exists pre' n u, pre = (pre' ++ [PrintFound n u])%list /\ (0 < n)%nat.
Proof.
  induction 1 as [|n0 u0 tr0 Hn0 Htr IH|u0 p0 url0 tr0 Htr IH
                  |u0 p0 url0 tr0 Htr IH|e tr0 He Htr IH];
    intros pre post s Heq.
  - destruct pre; discriminate.
  - destruct pre as [|a [|b pre]]; cbn in Heq.
    + discriminate.
    + injection Heq as <- <- _. split; [reflexivity|]. exists [], n0, u0. auto.
    + injection Heq as <- <- Heq. destruct (IH _ _ _ Heq) as (Hs & pre' & n & u & -> & Hn).
      split; [exact Hs|]. exists (PrintFound n0 u0 :: Sleep 2 :: pre'), n, u. auto.
  - destruct pre as [|a [|b pre]]; cbn in Heq; try discriminate.
    injection Heq as <- <- Heq. destruct (IH _ _ _ Heq) as (Hs & pre' & n & u & -> & Hn).
    split; [exact Hs|]. exists (PrintFound 0 u0 :: PrintNoMore p0 url0 :: pre'), n, u. auto.
  - destruct pre as [|a [|b pre]]; cbn in Heq; try discriminate.
    injection Heq as <- <- Heq. destruct (IH _ _ _ Heq) as (Hs & pre' & n & u & -> & Hn).
    split; [exact Hs|].
    exists (PrintFetchFailed u0 :: PrintNoMore p0 url0 :: pre'), n, u. auto.
  - destruct pre as [|a pre]; cbn in Heq.
    + injection Heq as -> _. contradiction.
    + injection Heq as <- Heq. destruct (IH _ _ _ Heq) as (Hs & pre' & n & u & -> & Hn).
      split; [exact Hs|]. exists (e :: pre'), n, u. auto.
Qed.

Lemma paced_after_unproductive tr :
  paced tr ->
  forall pre post e,
    tr = (pre ++ e :: post)%list ->
    (exists u, e = PrintFound 0 u \/ e = PrintFetchFailed u) ->
    exists p url post', post = PrintNoMore p url :: post'.
Proof.
  induction 1 as [|n0 u0 tr0 Hn0 Htr IH|u0 p0 url0 tr0 Htr IH
                  |u0 p0 url0 tr0 Htr IH|e0 tr0 He Htr IH];
    intros pre post e Heq [u He'].
  - destruct pre; discriminate.
  - destruct pre as [|a [|b pre]]; cbn in Heq.
    + injection Heq as <- _. destruct He' as [[= -> _]|[=]]. lia.
    + injection Heq as _ <- _. destruct He' as [[=]|[=]].
    + injection Heq as _ _ Heq. eapply IH; eauto.
  - destruct pre as [|a [|b pre]]; cbn in Heq.
    + injection Heq as _ <-. eauto.
    + injection Heq as _ <- _. destruct He' as [[=]|[=]].
    + injection Heq as _ _ Heq. eapply IH; eauto.
  - destruct pre as [|a [|b pre]]; cbn in Heq.
    + injection Heq as _ <-. eauto.
    + injection Heq as _ <- _. destruct He' as [[=]|[=]].
    + injection Heq as _ _ Heq. eapply IH; eauto.
  - destruct pre as [|a pre]; cbn in Heq.
    + injection Heq as -> _. destruct He' as [->| ->]; contradiction.
    + injection Heq as _ Heq. eapply IH; eauto.
Qed.

(** In a paced trace there is one pause of two seconds per page that
    yielded something. *)
Lemma paced_sleeps tr :
  paced tr -> sleeps tr = map (fun _ => 2%nat) (positive_yields (page_yields tr)).
Proof.
  induction 1 as [|n u tr Hn _ IH|u p url tr _ IH|u p url tr _ IH|e tr He _ IH].
  - reflexivity.
  - destruct n as [|n]; [lia|]. exact (f_equal (cons 2%nat) IH).
  - exact IH.
  - exact IH.
  - destruct e; try contradiction; exact IH.
Qed.

Section Counts.
Variable web : list event -> string -> option (list card).
Variable server_time : list event -> nat.
Variable store_error : list event -> option exn.

Lemma crawl_pages_paced url pages st total :
  paced (trace st) ->
  paced (trace (fst (crawl_pages web server_time store_error url pages st total))).
Proof.
  revert st total. induction pages as [|page rest IH]; intros st total Hst.
  - exact Hst.
  - destruct (scrape_page_spec web server_time store_error url page st) as [Ht _].
    destruct (Nat.eq_dec (page_yield_at web store_error url page st) 0) as [Hz|Hnz].
    + rewrite (crawl_pages_break _ _ _ _ _ _ _ _ Hz). cbn [fst emit trace].
      rewrite Ht, <- app_assoc. apply paced_app; [exact Hst|].
      apply paced_page. rewrite Hz. reflexivity.
    + rewrite (crawl_pages_continue _ _ _ _ _ _ _ _ Hnz). apply IH.
      cbn [emit trace]. rewrite Ht, <- app_assoc. apply paced_app; [exact Hst|].
      apply paced_page. apply Nat.eqb_neq in Hnz. rewrite Hnz. reflexivity.
Qed.

Lemma crawl_subcategories_paced urls st total :
  paced (trace st) ->
  paced (trace (fst (crawl_subcategories web server_time store_error urls st total))).
Proof.
  revert st total. induction urls as [|url rest IH]; intros st total Hst.
  - exact Hst.
  - cbn [crawl_subcategories].
    pose proof (crawl_pages_paced url (seq 1 7)
                  (emit (PrintSubcategory url) st) total) as Hsec.
    fold (crawl_subcategory web server_time store_error url st total) in Hsec.
    destruct (crawl_subcategory web server_time store_error url st total)
      as [st' total'].
    apply IH, Hsec. cbn [emit trace].
    apply paced_app; [exact Hst|]. apply paced_quiet; [exact I | apply paced_nil].
Qed.

Lemma main_paced (db0 : Firestore.store) :
  paced (trace (fst (main web server_time store_error {| db := db0; trace := [] |}))).
Proof.
  unfold main.
  pose proof (crawl_subcategories_paced SUBCATEGORY_URLS
                {| db := db0; trace := [] |} 0 paced_nil) as Hrun.
  destruct (crawl_subcategories web server_time store_error SUBCATEGORY_URLS _ 0)
    as [st' total].
  cbn [fst emit trace] in *.
  apply paced_app; [exact Hrun|]. apply paced_quiet; [exact I | apply paced_nil].
Qed.

(** X10. A run pauses once, for two seconds, per page that yielded at
    least one record, and this is where the pauses are: the closing line
    of such a page is followed at once by a pause of two seconds
    (after the seventh page of a subcategory too); every pause is of two
    seconds and comes right after such a line, so there is none after a
    page that yielded nothing or could not be fetched: those are
    followed at once by the line that ends the subcategory. *)
Theorem run_pauses_after_each_productive_page (db0 : Firestore.store) :
  sleeps (trace (fst (main web server_time store_error {| db := db0; trace := [] |}))) =
    map (fun _ => 2%nat)
      (positive_yields
         (page_yields (trace (fst (main web server_time store_error
                                     {| db := db0; trace := [] |}))))) /\
  (forall pre post n u,
     trace (fst (main web server_time store_error {| db := db0; trace := [] |})) =
       (pre ++ PrintFound n u :: post)%list ->
     (0 < n)%nat -> exists post', post = Sleep 2 :: post') /\
  (forall pre post s,
     trace (fst (main web server_time store_error {| db := db0; trace := [] |})) =
       (pre ++ Sleep s :: post)%list ->
     s = 2%nat /\
     exists pre' n u, pre = (pre' ++ [PrintFound n u])%list /\ (0 < n)%nat) /\
  (forall pre post e,
     trace (fst (main web server_time store_error {| db := db0; trace := [] |})) =
       (pre ++ e :: post)%list ->
     (exists u, e = PrintFound 0 u \/ e = PrintFetchFailed u) ->
     exists p url post', post = PrintNoMore p url :: post').
Proof.
  pose proof (main_paced db0) as Hp.
  split; [|split; [|split]].
  - apply paced_sleeps, Hp.
  - apply paced_after_productive, Hp.
  - apply paced_before_pause, Hp.
  - apply paced_after_unproductive, Hp.
Qed.

Lemma crawl_subcategories_total urls st total :
  length (writes (trace st)) = total ->
  sum_list (page_yields (trace st)) = total ->
  length (writes (trace (fst (crawl_subcategories web server_time store_error
                                urls st total)))) =
    snd (crawl_subcategories web server_time store_error urls st total) /\
  sum_list (page_yields (trace (fst (crawl_subcategories web server_time store_error
                                       urls st total)))) =
    snd (crawl_subcategories web server_time store_error urls st total).
Proof.
  revert st total. induction urls as [|url rest IH]; intros st total Hw Hy.
  - cbn. auto.
  - cbn [crawl_subcategories].
    destruct (crawl_subcategory_spec web server_time store_error url st total)
      as (seg & Ht & _ & Hlen & Hsum).
    destruct (crawl_subcategory web server_time store_error url st total)
      as [st' total'].
    cbn [fst snd] in *. apply IH.
    + rewrite Ht, writes_app, length_app, Hlen, Hw, Hsum. reflexivity.
    + rewrite Ht, page_yields_app, sum_list_with_app, Hy, Hsum. reflexivity.
Qed.

(** X11. The total a run reports in its last line is the number of
    writes the store applied during the run (a write the store refused
    is logged and not counted), and the sum of the yields of the pages
    visited. *)
Theorem reported_total_counts_the_writes (db0 : Firestore.store) :
  snd (main web server_time store_error {| db := db0; trace := [] |}) =
    length (writes (trace (fst (main web server_time store_error
                                  {| db := db0; trace := [] |})))) /\
  snd (main web server_time store_error {| db := db0; trace := [] |}) =
    sum_list (page_yields
                (trace (fst (main web server_time store_error
                               {| db := db0; trace := [] |})))) /\
  last (trace (fst (main web server_time store_error {| db := db0; trace := [] |}))) =
    Some (PrintFinished
            (snd (main web server_time store_error {| db := db0; trace := [] |}))).
Proof.
  unfold main.
  destruct (crawl_subcategories_total SUBCATEGORY_URLS
              {| db := db0; trace := [] |} 0 eq_refl eq_refl) as [Hw Hy].
  destruct (crawl_subcategories web server_time store_error SUBCATEGORY_URLS _ 0)
    as [st' total].
  cbn [fst snd emit trace] in *.
  rewrite writes_app, page_yields_app, length_app, sum_list_with_app, Hw, Hy.
  cbn. rewrite last_snoc. repeat split; lia.
Qed.

End Counts.

(** ** Requests over a run *)

Lemma section_visit_gets url seg :
  section_visit url seg ->
  exists k, (1 <= k <= 7)%nat /\ gets seg = map (page_url_of url) (seq 1 k).
Proof. intros (ys & pos & Hg & _ & Hk & _). exists (length ys). auto. Qed.

Lemma visits_gets urls segs :
  Forall2 section_visit urls segs ->
  gets (concat segs) `sublist_of` all_page_urls urls /\
  (length urls <= length (gets (concat segs)) <= 7 * length urls)%nat.
Proof.
  induction 1 as [|url seg urls segs Hv _ IH]; [split; [constructor | cbn; lia]|].
  destruct IH as [Hsub Hlen].
  apply section_visit_gets in Hv. destruct Hv as (k & Hk & Hg).
  cbn [concat all_page_urls flat_map]. rewrite gets_app, Hg. split.
  - apply sublist_app; [|exact Hsub].
    replace (seq 1 k) with (take k (seq 1 7))
      by (rewrite take_seq, Nat.min_l by lia; reflexivity).
    change (map (page_url_of url) (take k (seq 1 7)))
      with (page_url_of url <$> take k (seq 1 7)).
    rewrite fmap_take. apply sublist_take.
  - rewrite length_app, length_map, length_seq. cbn [length]. lia.
Qed.

(** The requests of a run, subcategory by subcategory. *)
Lemma visits_gets_by_section urls segs :
  Forall2 section_visit urls segs ->
  exists ks,
    Forall2 (fun (_ : string) k => (1 <= k <= 7)%nat) urls ks /\
    gets (concat segs) = concat (zip_with pages_requested urls ks).
Proof.
  induction 1 as [|url seg urls segs Hv _ IH]; [exists []; split; [constructor | reflexivity]|].
  destruct IH as (ks & Hks & Hg).
  apply section_visit_gets in Hv. destruct Hv as (k & Hk & Hgk).
  exists (k :: ks). split; [constructor; assumption|].
  cbn [concat zip_with]. rewrite gets_app, Hgk, Hg. reflexivity.
Qed.

Lemma all_page_urls_distinct : NoDup (all_page_urls SUBCATEGORY_URLS).
Proof.
  apply (bool_decide_unpack (NoDup (all_page_urls SUBCATEGORY_URLS))).
  vm_compute. exact I.
Qed.

Section Requests.
Variable web : list event -> string -> option (list card).
Variable server_time : list event -> nat.
Variable store_error : list event -> option exn.

Lemma main_gets (db0 : Firestore.store) :
  exists segs,
    gets (trace (fst (main web server_time store_error {| db := db0; trace := [] |}))) =
      gets (concat segs) /\
    Forall2 section_visit SUBCATEGORY_URLS segs.
Proof.
  unfold main.
  destruct (crawl_subcategories_spec web server_time store_error SUBCATEGORY_URLS
              {| db := db0; trace := [] |} 0) as (segs & Ht & Hall).
  destruct (crawl_subcategories web server_time store_error SUBCATEGORY_URLS _ 0) as [st' total].
  cbn [fst emit trace] in *. exists segs. split; [|exact Hall].
  rewrite Ht, gets_app. cbn. apply app_nil_r.
Qed.

(** X12. For each configured subcategory, in the order of the
    configuration, a run requests its pages 1 to k for some k from one
    to seven, and nothing else: at least one request per subcategory
    and at most seven, so between 14 and 98 in all. *)
Theorem run_sends_between_14_and_98_requests (db0 : Firestore.store) :
  exists ks,
    Forall2 (fun (_ : string) k => (1 <= k <= 7)%nat) SUBCATEGORY_URLS ks /\
    gets (trace (fst (main web server_time store_error {| db := db0; trace := [] |}))) =
      concat (zip_with pages_requested SUBCATEGORY_URLS ks) /\
    (14 <= length (gets (trace (fst (main web server_time store_error
                                       {| db := db0; trace := [] |})))) <= 98)%nat.
Proof.
  destruct (main_gets db0) as (segs & Hg & Hall).
  destruct (visits_gets_by_section _ _ Hall) as (ks & Hks & Hshape).
  exists ks. split; [exact Hks|]. split; [rewrite Hg; exact Hshape|].
  rewrite Hg. apply visits_gets in Hall. destruct Hall as [_ Hlen]. cbn in Hlen. lia.
Qed.

(** X13. No URL is requested twice in a run: not within a subcategory,
    where the page addresses are distinct, and not across the configured
    subcategories either. *)
Theorem run_never_requests_a_url_twice (db0 : Firestore.store) :
  NoDup (gets (trace (fst (main web server_time store_error {| db := db0; trace := [] |})))).
Proof.
  destruct (main_gets db0) as (segs & -> & Hall).
  apply visits_gets in Hall. destruct Hall as [Hsub _].
  apply (sublist_NoDup _ _ all_page_urls_distinct Hsub).
Qed.

Lemma crawl_subcategories_dead urls st total :
  (forall h u, web h u = None) ->
  crawl_subcategories web server_time store_error urls st total =
  ({| db := db st; trace := trace st ++ flat_map failed_visit urls |}, total).
Proof.
  intros Hdead. revert st total.
  induction urls as [|url rest IH]; intros st total.
  - cbn. rewrite app_nil_r. destruct st; reflexivity.
  - cbn [crawl_subcategories]. unfold crawl_subcategory. cbn [seq crawl_pages].
    unfold scrape_page. rewrite Hdead. cbn [Nat.eqb].
    rewrite IH. cbn [emit db trace flat_map]. rewrite <- !app_assoc. reflexivity.
Qed.

(** X14. When every request fails, a run asks for the first page of
    each subcategory once, in order, writes nothing, leaves the store as
    it was and reports a total of zero. *)
Theorem run_on_an_unreachable_site (st : state) :
  (forall h u, web h u = None) ->
  main web server_time store_error st =
  ({| db := db st;
      trace := trace st ++ flat_map failed_visit SUBCATEGORY_URLS ++ [PrintFinished 0] |},
   0%nat).
Proof.
  intros Hdead. unfold main. rewrite (crawl_subcategories_dead _ _ _ Hdead).
  unfold emit. cbn [db trace]. rewrite <- app_assoc. reflexivity.
Qed.

(** X15. A page that has cards, none of them well formed, ends the
    visit of its subcategory just like an empty page: no further page
    is requested, nothing is written and the total stays. *)
Theorem page_of_malformed_cards_ends_the_visit (url : string) (page : nat)
    (rest : list nat) (st : state) (total : nat) (cards : list card) :
  response_at web url page st = Some cards ->
  Forall (fun c => well_formed c = false) cards ->
  exists st' new,
    crawl_pages web server_time store_error url (page :: rest) st total = (st', total) /\
    trace st' = (trace st ++ new)%list /\
    gets new = [page_url_of url page] /\
    writes new = [] /\
    db st' = db st.
Proof.
  intros Hresp Hbad.
  assert (Hnone : forall tr, writes (cards_events store_error tr cards) = []).
  { intros tr. apply sublist_nil_r.
    rewrite <- (well_formed_none_written _ Hbad). apply writes_cards_events_sublist. }
  assert (Hw : writes (page_events_at web store_error url page st) = []).
  { rewrite writes_page_events, Hresp. apply Hnone. }
  assert (Hy : page_yield_at web store_error url page st = 0%nat).
  { unfold page_yield_at, page_yield. rewrite Hresp, Hnone. reflexivity. }
  destruct (scrape_page_spec web server_time store_error url page st) as [Ht _].
  pose proof (run_effect_page web server_time store_error url page st)
    as (new & Ht' & Hd & Hf & _).
  rewrite Ht in Ht'. apply app_inv_head in Ht'. subst new.
  rewrite Hw in Hd, Hf.
  eexists _, _. split; [apply crawl_pages_break, Hy|].
  cbn [emit trace db]. rewrite Ht, <- app_assoc.
  split; [reflexivity|]. split; [|split].
  - rewrite gets_app, gets_page_events. reflexivity.
  - rewrite writes_app, Hw. reflexivity.
  - apply map_eq. intros key. apply Hf. set_solver.
Qed.

End Requests.

Lemma run_on_an_unreachable_site_witness :
  main dead_web sample_clock accepting_store initial_state =
  ({| db := db initial_state;
      trace := trace initial_state ++ flat_map failed_visit SUBCATEGORY_URLS ++
               [PrintFinished 0] |},
   0%nat).
Proof.
  apply (run_on_an_unreachable_site dead_web sample_clock accepting_store initial_state).
  intros h u. reflexivity.
Defined.

Lemma page_of_malformed_cards_ends_the_visit_witness :
  exists st' new,
    crawl_pages (one_page_web [card_without_price; card_with_bad_price]) sample_clock
      accepting_store sample_section (1 :: [2; 3; 4; 5; 6; 7])%nat initial_state 0
      = (st', 0%nat) /\
    trace st' = (trace initial_state ++ new)%list /\
    gets new = [page_url_of sample_section 1] /\
    writes new = [] /\
    db st' = db initial_state.
Proof.
  apply (page_of_malformed_cards_ends_the_visit
           (one_page_web [card_without_price; card_with_bad_price]) sample_clock
           accepting_store sample_section 1 [2; 3; 4; 5; 6; 7]%nat initial_state 0
           [card_without_price; card_with_bad_price]).
  - reflexivity.
  - repeat constructor.
Defined.

(** ** One product listed twice on a page *)

Section Duplicates.
Import Firestore FirestoreFacts.
Variable server_time : list event -> nat.
Variable store_error : list event -> option exn.

(** X16. Two cards of a page with the same product URL, both of whose
    writes the store accepts, are both written and both counted, but end
    up in one document; its scalar fields are those of the second card,
    stamped with the time of the second write. *)
Theorem duplicate_cards_last_write_wins (c1 c2 : card) (id : string)
    (p1 p2 : pydict) (st : state) (k : nat) :
  card_write c1 = Some (id, p1) ->
  card_write c2 = Some (id, p2) ->
  store_error (trace st) = None ->
  store_error (trace st ++ [SetMerge id p1])%list = None ->
  snd (scrape_cards server_time store_error [c1; c2] st k) = (k + 2)%nat /\
  writes (trace (fst (scrape_cards server_time store_error [c1; c2] st k))) =
    (writes (trace st) ++ [(id, p1); (id, p2)])%list /\
  dom (db (fst (scrape_cards server_time store_error [c1; c2] st k))) =
    {[ ("retailer_products", id) ]} ∪ dom (db st) /\
  exists doc,
    db (fst (scrape_cards server_time store_error [c1; c2] st k)) !! ("retailer_products", id)
      = Some doc /\
    forall f l, p2 !! f = Some (Leaf l) ->
      doc !! f =
      Some (Leaf (resolve_leaf (server_time (trace st ++ [SetMerge id p1])) l)).
Proof.
  intros H1 H2 Hs1 Hs2. cbn [scrape_cards].
  rewrite try_card_spec, (card_write_no_error _ _ H1), H1, Hs1.
  rewrite try_card_spec, (card_write_no_error _ _ H2), H2. cbn [fst snd db trace].
  rewrite Hs2. cbn [fst snd db trace].
  split; [lia|]. split; [|split].
  - rewrite !writes_app. cbn. rewrite <- app_assoc. reflexivity.
  - rewrite !set_merge_dom. rewrite (assoc_L (∪)), (idemp_L (∪)). reflexivity.
  - eexists. split; [apply set_merge_lookup|].
    intros f l Hf. rewrite merge_doc_lookup, lookup_fmap, Hf. cbn.
    match goal with |- match ?o with _ => _ end = _ => destruct o end; reflexivity.
Qed.

End Duplicates.

Lemma duplicate_cards_last_write_wins_witness :
  snd (scrape_cards sample_clock accepting_store [sample_card "a"; sample_card_again]
         initial_state 0)
    = (0 + 2)%nat /\
  writes (trace (fst (scrape_cards sample_clock accepting_store
                        [sample_card "a"; sample_card_again] initial_state 0))) =
    (writes (trace initial_state) ++
     [(doc_id "https://www.countryroad.co.nz/p/linen-shirt-a",
       make_product "Linen Shirt a" (Finite false 12900 (-2))
         "https://www.countryroad.co.nz/img/linen-shirt-a.jpg"
         "https://www.countryroad.co.nz/p/linen-shirt-a" "tops" "");
      (doc_id "https://www.countryroad.co.nz/p/linen-shirt-a",
       make_product "Linen Shirt a (new season)" (Finite false 9900 (-2))
         "https://www.countryroad.co.nz/img/linen-shirt-a-2.jpg"
         "https://www.countryroad.co.nz/p/linen-shirt-a" "tops" "")])%list /\
  dom (db (fst (scrape_cards sample_clock accepting_store
                  [sample_card "a"; sample_card_again] initial_state 0))) =
    {[ ("retailer_products", doc_id "https://www.countryroad.co.nz/p/linen-shirt-a") ]}
    ∪ dom (db initial_state) /\
  exists doc,
    db (fst (scrape_cards sample_clock accepting_store
               [sample_card "a"; sample_card_again] initial_state 0))
      !! ("retailer_products", doc_id "https://www.countryroad.co.nz/p/linen-shirt-a")
      = Some doc /\
    forall f l,
      make_product "Linen Shirt a (new season)" (Finite false 9900 (-2))
        "https://www.countryroad.co.nz/img/linen-shirt-a-2.jpg"
        "https://www.countryroad.co.nz/p/linen-shirt-a" "tops" "" !! f = Some (Leaf l) ->
      doc !! f =
      Some (Leaf (Firestore.resolve_leaf
                    (sample_clock
                       (trace initial_state ++
                        [SetMerge (doc_id "https://www.countryroad.co.nz/p/linen-shirt-a")
                           (make_product "Linen Shirt a" (Finite false 12900 (-2))
                              "https://www.countryroad.co.nz/img/linen-shirt-a.jpg"
                              "https://www.countryroad.co.nz/p/linen-shirt-a" "tops" "")]))
                    l)).
Proof.
  apply (duplicate_cards_last_write_wins sample_clock accepting_store (sample_card "a")
           sample_card_again).
  - vm_compute. reflexivity.
  - vm_compute. reflexivity.
  - reflexivity.
  - reflexivity.
Defined.
